(** * Interview lifecycle of the phone screener (src/main.py)

    A shallow embedding of the request handlers of [src/main.py] that own the
    Job / Candidate / Interview records, and theorems about the lifecycle
    properties stated for them.

    Modelling conventions.
    - The three SQL tables are the components of [Store].  [Session.get] is a
      lookup by primary key, [s.add ...; s.commit()] inserts a row and raises
      IntegrityError when the key is taken, and assigning a new value to an
      attribute followed by [commit] replaces the row.
    - [Interview.answers] is a plain JSON column.  The session writes such a
      column when the value assigned to the attribute differs from the value
      that was loaded; a loaded list that is changed in place and assigned
      back is the loaded object itself, so nothing is written for it.  This
      is what [voice_record] does whenever the loaded list is not empty.
    - [created_at] is filled in by SQLite (CURRENT_TIMESTAMP), in whole
      seconds; the second in which a job is inserted is an argument of the
      handler.
    - Python strings are [string]; the truth value of a string is
      "non-empty".  Unbounded Python integers are [Z].
    - Every handler returns the new store together with what the HTTP caller
      sees ([Response]).  An exception that no handler catches is [Uncaught]
      (the framework turns it into a 500).
    - The outside world (uuid4, the HTTP client, the transcriber, the scorer,
      the phone-number library, the file system) is not part of the program:
      what it answers is an argument of the handler that asks.  [str.strip]
      removes Unicode white space, which a string of bytes cannot tell; it is
      a field of [Config], like the phone-number library. *)

From Stdlib Require Import ZArith.
From stdpp Require Import gmap strings list fin_maps pretty sorting.

(** ** Python values *)

(** [bool(s)] for a [str]. *)
Definition truthy (s : string) : bool := negb (String.eqb s "").

(** [bool(o)] for an [Optional[str]]. *)
Definition truthy_opt (o : option string) : bool :=
  match o with Some s => truthy s | None => false end.

(** A JSON scalar, as stored under the [score] and [rationale] keys. *)
Inductive jval : Type :=
| JNull
| JNum (z : Z)
| JStr (s : string).

(** What an HTTP caller gets back. *)
Inductive Response (A : Type) : Type :=
| Json (body : A)
| PlainTextResponse (status_code : Z) (content : string)
| HTTPException (status_code : Z) (detail : string)
| FileResponse (path : string)
| Uncaught (exn : string).
Arguments Json {A} body.
Arguments FileResponse {A} path.
Arguments PlainTextResponse {A} status_code content.
Arguments HTTPException {A} status_code detail.
Arguments Uncaught {A} exn.

(** ** Data model (the ORM classes) *)

(** One element of [Interview.answers].  The handlers only ever store dicts
    with the five keys [q_idx], [question], [recording_url], [local_audio],
    [transcript]; [score] and [rationale] are keys that scoring may add, so
    they are optional here ([Some JNull] is a key holding [None]). *)
Record Answer : Type := mkAnswer {
  q_idx : Z;
  question : string;
  recording_url : string;
  local_audio : string;
  transcript : string;
  score : option jval;
  rationale : option jval
}.

Module Job.
Record t : Type := mk {
  id : string;
  jd_text : string;
  questions : list string;
  (* CURRENT_TIMESTAMP at the insert, in seconds *)
  created_at : Z
}.
End Job.

Module Candidate.
Record t : Type := mk {
  id : string;
  name : string;
  phone_e164 : string;
  resume_meta : option (list (string * jval))
}.
End Candidate.

Module Interview.
Record t : Type := mk {
  id : string;
  job_id : string;
  candidate_id : string;
  status : string;
  provider_call_id : option string;
  answers : list Answer;
  final_recommendation : option string
}.

Definition with_status (s : string) (i : t) : t :=
  mk (id i) (job_id i) (candidate_id i) s (provider_call_id i) (answers i)
     (final_recommendation i).

Definition with_provider_call_id (c : option string) (i : t) : t :=
  mk (id i) (job_id i) (candidate_id i) (status i) c (answers i)
     (final_recommendation i).

Definition with_answers (a : list Answer) (i : t) : t :=
  mk (id i) (job_id i) (candidate_id i) (status i) (provider_call_id i) a
     (final_recommendation i).

Definition with_final_recommendation (r : option string) (i : t) : t :=
  mk (id i) (job_id i) (candidate_id i) (status i) (provider_call_id i)
     (answers i) r.
End Interview.

(** The database.  [jobs] holds the rows of the jobs table, the row inserted
    last first. *)
Record Store : Type := mkStore {
  jobs : list Job.t;
  candidates : gmap string Candidate.t;
  interviews : gmap string Interview.t
}.

Definition empty_store : Store := mkStore [] ∅ ∅.

Definition set_interviews (m : gmap string Interview.t) (st : Store) : Store :=
  mkStore (jobs st) (candidates st) m.

Definition set_candidates (m : gmap string Candidate.t) (st : Store) : Store :=
  mkStore (jobs st) m (interviews st).

Definition set_jobs (l : list Job.t) (st : Store) : Store :=
  mkStore l (candidates st) (interviews st).

(** [s.get(Job, job_id)] *)
Definition get_job (st : Store) (job_id : string) : option Job.t :=
  find (fun j => String.eqb (Job.id j) job_id) (jobs st).

(** [order_by(Job.created_at.desc()).first()] over rows given last inserted
    first: the row with the greatest [created_at]; among rows of the same
    second SQLite keeps the one it met first, which is the one inserted
    first. *)
Fixpoint latest_of (rows : list Job.t) : option Job.t :=
  match rows with
  | [] => None
  | j :: older =>
    match latest_of older with
    | Some k => if (Job.created_at k <? Job.created_at j)%Z then Some j else Some k
    | None => Some j
    end
  end.

(** [get_latest_job] *)
Definition get_latest_job (st : Store) : option Job.t := latest_of (jobs st).

(** Environment constants read at start-up. *)
Record Config : Type := mkConfig {
  DEVELOPMENT_MODE : bool;
  OUTBOUND_WHITELIST : gset string;
  PUBLIC_BASE_URL : string;
  (* os.getcwd() when the module is loaded *)
  cwd : string;
  (* VONAGE_APPLICATION_ID and the private key file are both present *)
  vonage_configured : bool;
  (* phonenumbers: parse, validate, format as E.164; None when it raises *)
  phonenumbers_e164 : string -> option string;
  (* str.strip() *)
  py_strip : string -> string
}.

Definition is_development_mode (cfg : Config) : bool := DEVELOPMENT_MODE cfg.

(** ** [os.path] on POSIX *)

(** [s.split("/")] *)
Fixpoint split_sep (s : string) : list string :=
  match s with
  | EmptyString => [EmptyString]
  | String c s' =>
    if String.eqb (String c EmptyString) "/" then EmptyString :: split_sep s'
    else
      match split_sep s' with
      | [] => [String c EmptyString]
      | w :: ws => String c w :: ws
      end
  end.

Definition endswith_sep (s : string) : bool := String.prefix "/" (String.rev s).

(** [os.path.join(a, b)] *)
Definition path_join (a b : string) : string :=
  if String.prefix "/" b then b
  else if negb (truthy a) || endswith_sep a then a +:+ b
  else a +:+ "/" +:+ b.

(** One round of the loop of [normpath] over the components. *)
Definition normpath_step (initial_slashes : nat) (new_comps : list string)
    (comp : string) : list string :=
  if String.eqb comp "" || String.eqb comp "." then new_comps
  else if negb (String.eqb comp "..")
          || (bool_decide (initial_slashes = 0) && bool_decide (new_comps = []))
          || (negb (bool_decide (new_comps = []))
              && bool_decide (last new_comps = Some ".."))
  then new_comps ++ [comp]
  else removelast new_comps.

(** [os.path.normpath] *)
Definition normpath (path : string) : string :=
  if String.eqb path "" then "."
  else
    let initial_slashes :=
      if String.prefix "/" path then
        if String.prefix "//" path && negb (String.prefix "///" path) then 2
        else 1
      else 0 in
    let comps := foldl (normpath_step initial_slashes) [] (split_sep path) in
    let path := String.concat "/" comps in
    let path :=
      match initial_slashes with
      | 0 => path
      | 1 => "/" +:+ path
      | _ => "//" +:+ path
      end in
    if truthy path then path else ".".

(** [os.path.abspath], for the working directory [cwd]. *)
Definition abspath (cwd : string) (path : string) : string :=
  normpath (if String.prefix "/" path then path else path_join cwd path).

(** [ARTIFACTS_DIR = os.path.abspath("./artifacts")] *)
Definition ARTIFACTS_DIR (cfg : Config) : string := abspath (cwd cfg) "./artifacts".

(** ** Helpers *)

(** [to_e164]: any failure of the phone library becomes a 400. *)
Definition to_e164 (cfg : Config) (phone : string) : string + Z * string :=
  match phonenumbers_e164 cfg phone with
  | Some p => inl p
  | None => inr (400%Z, "Invalid E.164 phone")
  end.

(** [ensure_whitelisted]: [None] when the check passes. *)
Definition ensure_whitelisted (cfg : Config) (phone_e164 : string)
  : option (Z * string) :=
  if bool_decide (OUTBOUND_WHITELIST cfg ≠ ∅)
     && negb (bool_decide (phone_e164 ∈ OUTBOUND_WHITELIST cfg))
  then Some (403%Z, "Outbound number not in whitelist")
  else None.

(** [str(n)] for an [int]. *)
Definition str_of_int (n : Z) : string := pretty n.

(** ** Call-status webhook: [voice_event] *)

(** The provider statuses the handler reacts to. *)
Definition terminal_report (status : string) : bool :=
  String.eqb status "completed" || String.eqb status "failed"
  || String.eqb status "timeout" || String.eqb status "rejected".

(** [n] is the query parameter (absent is [None]); [status] is
    [req.get("status")] when the body is a dict whose status is a string, and
    [None] otherwise (no dict, no such key, or a value that is not a string:
    none of these is a member of the set of four strings).  The handler
    answers "OK" whatever happens. *)
Definition voice_event (n : option string) (status : option string)
    (st : Store) : Store * Response unit :=
  let st' :=
    match n, status with
    | Some n, Some status =>
      if truthy n && terminal_report status then
        match interviews st !! n with
        | Some inter =>
          if negb (String.eqb (Interview.status inter) "completed") then
            let new_status :=
              if negb (String.eqb status "completed") then status
              else Interview.status inter in
            set_interviews
              (<[n := Interview.with_status new_status inter]> (interviews st)) st
          else st
        | None => st
        end
      else st
    | _, _ => st
    end in
  (st', PlainTextResponse 200 "OK").

(** ** Recording webhook: [voice_record] *)

(** The JSON body of the callback, reduced to the three keys that are read. *)
Record RecordPayload : Type := mkPayload {
  p_recording_url : option string;
  p_RECORDING_URL : option string;
  p_url : option string
}.

(** [a or b] on optional strings. *)
Definition py_or (a b : option string) : option string :=
  if truthy_opt a then a else b.

Definition payload_rec_url (p : RecordPayload) : option string :=
  py_or (py_or (p_recording_url p) (p_RECORDING_URL p)) (p_url p).

(** What the transcriber left in [transcript]: its text, or the sentinel
    built in the [except] branch from the exception's message. *)
Definition transcript_of (tr : string + string) : string :=
  match tr with
  | inl text => text
  | inr e => "(transcription_failed: " +:+ e +:+ ")"
  end.

(** [f"{interview_id}/q_{q_idx}.mp3"] *)
Definition audio_rel (interview_id : string) (q_idx : Z) : string :=
  interview_id +:+ "/q_" +:+ str_of_int q_idx +:+ ".mp3".

(** [job.questions[q_idx] if 0 <= q_idx < len(job.questions) else f"Q{q_idx+1}"],
    where [job] is what [s.get(Job, inter.job_id)] returned.  The chained
    comparison stops at [0 <= q_idx] when that is false, so a missing job
    ([None]) is only dereferenced for a non-negative index; the result [None]
    stands for the AttributeError raised then. *)
Definition question_text (job : option Job.t) (q_idx : Z) : option string :=
  if (0 <=? q_idx)%Z then
    match job with
    | None => None
    | Some job =>
      if (q_idx <? Z.of_nat (length (Job.questions job)))%Z then
        Some (default "" (Job.questions job !! Z.to_nat q_idx))
      else Some ("Q" +:+ str_of_int (q_idx + 1))
    end
  else Some ("Q" +:+ str_of_int (q_idx + 1)).

(** The [for a in answers: ... break] loop: the first dict whose [q_idx]
    matches is updated in its place (four keys are overwritten, [score] and
    [rationale] stay); the result says whether one was found. *)
Fixpoint update_answer (q : Z) (qtext rec_url local transcript : string)
    (answers : list Answer) : list Answer * bool :=
  match answers with
  | [] => ([], false)
  | a :: rest =>
    if (q_idx a =? q)%Z then
      (mkAnswer (q_idx a) qtext rec_url local transcript (score a) (rationale a)
         :: rest, true)
    else
      let '(rest', found) := update_answer q qtext rec_url local transcript rest in
      (a :: rest', found)
  end.

Definition upsert_answer (q : Z) (qtext rec_url local transcript : string)
    (answers : list Answer) : list Answer :=
  let '(answers', found) := update_answer q qtext rec_url local transcript answers in
  if found then answers'
  else answers' ++ [mkAnswer q qtext rec_url local transcript None None].

(** [answers = inter.answers or []; ...; inter.answers = answers; s.commit()].
    [inter.answers or []] is the loaded list itself unless that list is empty,
    and the loop and the [append] change it in place.  Assigning the loaded
    object back leaves the attribute as it was loaded, so the commit writes
    nothing; only a loaded list that is empty is replaced, by the new list
    that [or []] made. *)
Definition persisted_answers (loaded answers : list Answer) : list Answer :=
  match loaded with
  | [] => answers
  | _ :: _ => loaded
  end.

(** [download_ok] is whether fetching the recording passed
    [raise_for_status]; [tr] is the transcriber's outcome.  Writing the audio
    file happens on the file system, which is outside the store. *)
Definition voice_record (interview_id : string) (q_idx : Z)
    (payload : RecordPayload) (download_ok : bool) (tr : string + string)
    (st : Store) : Store * Response unit :=
  let rec_url := payload_rec_url payload in
  if negb (truthy_opt rec_url) then
    (st, PlainTextResponse 400 "No recording_url")
  else if negb download_ok then
    (st, Uncaught "HTTPStatusError")
  else
    let rec_url := default "" rec_url in
    let transcript := transcript_of tr in
    match interviews st !! interview_id with
    | None => (st, PlainTextResponse 404 "interview not found")
    | Some inter =>
      match question_text (get_job st (Interview.job_id inter)) q_idx with
      | None => (st, Uncaught "AttributeError")
      | Some question =>
        let answers :=
          upsert_answer q_idx question rec_url
            ("/v1/artifacts/" +:+ audio_rel interview_id q_idx) transcript
            (Interview.answers inter) in
        let stored := persisted_answers (Interview.answers inter) answers in
        (set_interviews
           (<[interview_id := Interview.with_answers stored inter]> (interviews st))
           st,
         PlainTextResponse 200 "OK")
      end
    end.

(** ** Development endpoint: [simulate_answers] *)

(** The body of the [for idx, (question, transcript) in enumerate(zip(...))]
    loop, starting at index [idx]. *)
Fixpoint fake_answer_records (interview_id : string) (idx : Z)
    (questions transcripts : list string) : list Answer :=
  match questions, transcripts with
  | question :: qs, transcript :: ts =>
    mkAnswer idx question
      ("https://fake-recording-service.com/interview_" +:+ interview_id
         +:+ "_q_" +:+ str_of_int idx +:+ ".mp3")
      ("/v1/dev/fake-audio/" +:+ interview_id +:+ "/q_" +:+ str_of_int idx +:+ ".mp3")
      transcript None None
    :: fake_answer_records interview_id (idx + 1) qs ts
  | _, _ => []
  end.

Record SimulateOut : Type := mkSimulateOut {
  so_interview_id : string;
  so_answers_count : nat;
  so_status : string
}.

(** [fake_transcripts] is what [generate_fake_answers(job.questions)] drew
    (one text per question; which text is random). *)
Definition simulate_answers (cfg : Config) (interview_id : string)
    (fake_transcripts : list string) (st : Store) : Store * Response SimulateOut :=
  if negb (is_development_mode cfg) then
    (st, HTTPException 400 "This endpoint is only available in development mode")
  else
    match interviews st !! interview_id with
    | None => (st, HTTPException 404 "Interview not found")
    | Some inter =>
      match get_job st (Interview.job_id inter) with
      | None => (st, HTTPException 404 "Job not found")
      | Some job =>
        let answers :=
          fake_answer_records interview_id 0 (Job.questions job) fake_transcripts in
        (set_interviews
           (<[interview_id :=
                Interview.with_status "completed"
                  (Interview.with_answers answers inter)]> (interviews st)) st,
         Json (mkSimulateOut interview_id (length answers) "completed"))
      end
    end.

(** ** Result read: [get_interview] *)

(** One element of the scorer's [per_answer] list.  [pa_q_idx] is [None] for
    an element that the comprehension drops (not a dict, or no [q_idx] key)
    and for one whose [q_idx] is not an integer, which no answer looks up.
    [pa_score] and [pa_rationale] are [b.get(...)]: [JNull] for a missing
    key. *)
Record PerAnswer : Type := mkPerAnswer {
  pa_q_idx : option Z;
  pa_score : jval;
  pa_rationale : jval
}.

(** The dict [openai_score] returns, reduced to the keys that are read:
    [scoring.get("per_answer", [])] and [scoring.get("recommendation")]. *)
Record Scoring : Type := mkScoring {
  per_answer : list PerAnswer;
  recommendation : option string
}.

(** The chat model's reply as [openai_score] sees it. *)
Inductive ScorerReply : Type :=
| ReplyRaises                 (* the API call raises, or the reply is JSON but not an object *)
| ReplyNotJson                (* [json.loads] raises *)
| ReplyJson (sc : Scoring).

(** [openai_score]: [None] is an exception reaching the caller. *)
Definition openai_score (reply : ScorerReply) : option Scoring :=
  match reply with
  | ReplyRaises => None
  | ReplyNotJson => Some (mkScoring [] (Some "Neutral"))
  | ReplyJson sc => Some sc
  end.

(** [sorted(answers, key=lambda x: x.get("q_idx", 0))]: a stable sort. *)
Fixpoint insert_by_q_idx (a : Answer) (l : list Answer) : list Answer :=
  match l with
  | [] => [a]
  | b :: l' =>
    if (q_idx a <=? q_idx b)%Z then a :: l else b :: insert_by_q_idx a l'
  end.

Definition sorted_by_q_idx (l : list Answer) : list Answer :=
  foldr insert_by_q_idx [] l.

(** ["score" in a] *)
Definition has_score (a : Answer) : bool :=
  match score a with Some _ => true | None => false end.

(** [{x.get("q_idx"): x for x in pa if isinstance(x, dict) and "q_idx" in x}] *)
Definition by_idx_of (pa : list PerAnswer) : gmap Z PerAnswer :=
  foldl (fun m x => match pa_q_idx x with Some k => <[k := x]> m | None => m end)
        ∅ pa.

(** The body of [for a in answers_sorted]. *)
Definition apply_score (by_idx : gmap Z PerAnswer) (a : Answer) : Answer :=
  match by_idx !! q_idx a with
  | Some b =>
    mkAnswer (q_idx a) (question a) (recording_url a) (local_audio a)
      (transcript a) (Some (pa_score b)) (Some (pa_rationale b))
  | None => a
  end.

Record Snapshot : Type := mkSnapshot {
  s_interview_id : string;
  s_status : string;
  s_job_id : string;
  s_questions : list string;
  s_candidate_id : string;
  s_name : string;
  s_phone_e164 : string;
  s_answers : list Answer;
  s_final_recommendation : option string;
  s_dev_mode : bool
}.

Record ReadOut : Type := mkReadOut {
  r_store : Store;
  r_response : Response Snapshot;
  (* the arguments of the call to openai_score, when it is called *)
  r_scorer_call : option (list string * list string)
}.

(** [have_all], for the job's questions and the interview's answers. *)
Definition have_all (questions : list string) (answers_sorted : list Answer) : bool :=
  bool_decide (length answers_sorted = length questions)
  && forallb truthy (map transcript answers_sorted).

(** The guard of the scoring block. *)
Definition needs_scoring (questions : list string) (inter : Interview.t) : bool :=
  let answers_sorted := sorted_by_q_idx (Interview.answers inter) in
  have_all questions answers_sorted
  && (negb (truthy_opt (Interview.final_recommendation inter))
      || negb (existsb has_score answers_sorted)).

Definition get_interview (cfg : Config) (interview_id : string)
    (reply : ScorerReply) (st : Store) : ReadOut :=
  match interviews st !! interview_id with
  | None => mkReadOut st (HTTPException 404 "Not found") None
  | Some inter =>
    let cand := candidates st !! Interview.candidate_id inter in
    let answers_sorted := sorted_by_q_idx (Interview.answers inter) in
    let transcripts := map transcript answers_sorted in
    match get_job st (Interview.job_id inter) with
    | None => mkReadOut st (Uncaught "AttributeError") None
    | Some job =>
      (* (store, answers_sorted, inter.final_recommendation, scorer call) *)
      let '(st', answers_out, final, call) :=
        if needs_scoring (Job.questions job) inter then
          let call := Some (Job.questions job, transcripts) in
          match openai_score reply with
          | None => (st, answers_sorted, Interview.final_recommendation inter, call)
          | Some scoring =>
            let by_idx := by_idx_of (per_answer scoring) in
            let scored := map (apply_score by_idx) answers_sorted in
            let final := recommendation scoring in
            let i2 :=
              Interview.with_final_recommendation final
                (Interview.with_answers scored inter) in
            let i2 :=
              if negb (String.eqb (Interview.status i2) "completed"
                       || String.eqb (Interview.status i2) "failed")
              then Interview.with_status "completed" i2 else i2 in
            (set_interviews (<[interview_id := i2]> (interviews st)) st,
             scored, final, call)
          end
        else (st, answers_sorted, Interview.final_recommendation inter, None) in
      match cand with
      | None => mkReadOut st' (Uncaught "AttributeError") call
      | Some cand =>
        mkReadOut st'
          (Json (mkSnapshot (Interview.id inter) (Interview.status inter)
                   (Job.id job) (Job.questions job)
                   (Candidate.id cand) (Candidate.name cand)
                   (Candidate.phone_e164 cand)
                   answers_out final (is_development_mode cfg)))
          call
      end
    end
  end.

(** ** Artifact download: [serve_artifact] *)

(** [exists] is [os.path.exists] on the machine that serves. *)
Definition serve_artifact (cfg : Config) (exists_ : string -> bool)
    (path : string) : Response unit :=
  let ap := path_join (ARTIFACTS_DIR cfg) path in
  if negb (String.prefix (ARTIFACTS_DIR cfg) (abspath (cwd cfg) ap)) then
    HTTPException 403 "Invalid path"
  else if negb (exists_ ap) then HTTPException 404 "Not found"
  else FileResponse ap.

(** ** Job and candidate rows *)

(** [jd_to_questions].  [file] is the text read from the upload (by [read_pdf],
    [read_docx] or [decode]); [questions] is what [openai_questions] returned
    ([None] when it raises); [job_id] is the uuid drawn; [now] is the second
    in which the row is inserted. *)
Definition jd_to_questions (cfg : Config) (jd_text file : option string)
    (questions : option (list string)) (job_id : string) (now : Z) (st : Store)
  : Store * Response (string * list string) :=
  if negb (truthy_opt jd_text) && negb (bool_decide (is_Some file)) then
    (st, HTTPException 400 "Provide jd_text or file")
  else
    let jd_text := match file with Some fb => Some fb | None => jd_text end in
    let jd_text := py_strip cfg (default "" jd_text) in
    if negb (truthy jd_text) then (st, HTTPException 400 "Empty JD")
    else
      match questions with
      | None => (st, Uncaught "OpenAIError")
      | Some questions =>
        match get_job st job_id with
        | Some _ => (st, Uncaught "IntegrityError")
        | None =>
          (set_jobs (Job.mk job_id jd_text questions now :: jobs st) st,
           Json (job_id, questions))
        end
      end.

(** [s.add(cand); s.commit()] *)
Definition add_candidate_row (cand : Candidate.t) (st : Store) : option Store :=
  match candidates st !! Candidate.id cand with
  | Some _ => None
  | None => Some (set_candidates (<[Candidate.id cand := cand]> (candidates st)) st)
  end.

(** [add_candidate]; [cand_id] is the uuid drawn. *)
Definition add_candidate (cfg : Config) (name phone_e164 cand_id : string)
    (st : Store) : Store * Response Candidate.t :=
  match to_e164 cfg phone_e164 with
  | inr (code, detail) => (st, HTTPException code detail)
  | inl phone =>
    match (if is_development_mode cfg then None else ensure_whitelisted cfg phone) with
    | Some (code, detail) => (st, HTTPException code detail)
    | None =>
      let cand := Candidate.mk cand_id name phone None in
      match add_candidate_row cand st with
      | None => (st, Uncaught "IntegrityError")
      | Some st' => (st', Json cand)
      end
    end
  end.

(** [attach_resume_meta] *)
Definition attach_resume_meta (candidate_id : string)
    (meta : list (string * jval)) (st : Store) : Store * Response bool :=
  match candidates st !! candidate_id with
  | None => (st, HTTPException 404 "Candidate not found")
  | Some c =>
    (set_candidates
       (<[candidate_id :=
            Candidate.mk (Candidate.id c) (Candidate.name c)
              (Candidate.phone_e164 c) (Some meta)]> (candidates st)) st,
     Json true)
  end.

(** ** Interview trigger: [trigger_interview] *)

Module InterviewTriggerIn.
Record t : Type := mk {
  candidate_id : option string;
  name : option string;
  phone_e164 : option string;
  job_id : option string;
  from_number : string
}.
End InterviewTriggerIn.

(** The provider's answer to [POST /v1/calls]: [r.status_code], [r.text] and
    [r.json().get("uuid")] ([json_uuid] is [None] when the body is not JSON,
    [Some None] when it has no uuid). *)
Record HttpResponse : Type := mkHttpResponse {
  status_code : Z;
  text : string;
  json_uuid : option (option string)
}.

(** What [await hx.post(...)] does: it raises (no connection, no answer
    within the 30 seconds of the client), or it returns the provider's
    response. *)
Inductive PostOutcome : Type :=
| PostRaises (exn : string)
| PostReturns (r : HttpResponse).

(** What the world supplies to one trigger request: the three uuids drawn and
    the outcome of the request to the provider. *)
Record TriggerEnv : Type := mkTriggerEnv {
  cand_uuid : string;
  inter_uuid : string;
  dev_call_uuid : string;
  vonage_response : PostOutcome
}.

Record TriggerOut : Type := mkTriggerOut {
  to_interview_id : string;
  to_call_uuid : option string;
  to_candidate_id : string;
  to_job_id : string;
  to_dev_mode : bool
}.

(** The first [with SessionLocal()] block: resolve the job and the candidate. *)
Definition resolve_trigger (cfg : Config) (data : InterviewTriggerIn.t)
    (env : TriggerEnv) (st : Store)
  : Store * (Job.t * Candidate.t + Response TriggerOut) :=
  let job :=
    if truthy_opt (InterviewTriggerIn.job_id data)
    then get_job st (default "" (InterviewTriggerIn.job_id data))
    else get_latest_job st in
  match job with
  | None =>
    (st, inr (HTTPException 404 "No job found. Create questions first via /v1/jd."))
  | Some job =>
    if truthy_opt (InterviewTriggerIn.candidate_id data) then
      match candidates st !! default "" (InterviewTriggerIn.candidate_id data) with
      | None => (st, inr (HTTPException 404 "candidate_id invalid"))
      | Some cand => (st, inl (job, cand))
      end
    else if negb (truthy_opt (InterviewTriggerIn.name data)
                  && truthy_opt (InterviewTriggerIn.phone_e164 data)) then
      (st, inr (HTTPException 400 "Provide candidate_id OR name + phone_e164"))
    else
      match to_e164 cfg (default "" (InterviewTriggerIn.phone_e164 data)) with
      | inr (code, detail) => (st, inr (HTTPException code detail))
      | inl phone =>
        match (if is_development_mode cfg then None
               else ensure_whitelisted cfg phone) with
        | Some (code, detail) => (st, inr (HTTPException code detail))
        | None =>
          let cand :=
            Candidate.mk (cand_uuid env)
              (default "" (InterviewTriggerIn.name data)) phone None in
          match add_candidate_row cand st with
          | None => (st, inr (Uncaught "IntegrityError"))
          | Some st' => (st', inl (job, cand))
          end
        end
      end
  end.

(** [inter = s.get(Interview, inter_id); ...; s.commit()] for a row that
    exists. *)
Definition update_interview (inter_id : string)
    (f : Interview.t -> Interview.t) (st : Store) : Store :=
  match interviews st !! inter_id with
  | Some inter => set_interviews (<[inter_id := f inter]> (interviews st)) st
  | None => st
  end.

(** Everything after the interview row is written. *)
Definition place_call (cfg : Config) (env : TriggerEnv) (job : Job.t)
    (cand : Candidate.t) (st : Store) : Store * Response TriggerOut :=
  let inter_id := inter_uuid env in
  if is_development_mode cfg then
    let fake_call_id := "dev_call_" +:+ dev_call_uuid env in
    (update_interview inter_id
       (fun i => Interview.with_status "in_progress"
                   (Interview.with_provider_call_id (Some fake_call_id) i)) st,
     Json (mkTriggerOut inter_id (Some fake_call_id) (Candidate.id cand)
             (Job.id job) true))
  else if negb (vonage_configured cfg) then
    (* build_vonage_jwt *)
    (st, HTTPException 500 "Vonage app/private key not configured")
  else
    match vonage_response env with
    | PostRaises exn => (st, Uncaught exn)
    | PostReturns r =>
      if (300 <=? status_code r)%Z then
        (update_interview inter_id (Interview.with_status "failed") st,
         HTTPException (status_code r) ("Vonage call create failed: " +:+ text r))
      else
        match json_uuid r with
        | None => (st, Uncaught "JSONDecodeError")
        | Some call_id =>
          (update_interview inter_id
             (fun i => Interview.with_status "in_progress"
                         (Interview.with_provider_call_id call_id i)) st,
           Json (mkTriggerOut inter_id call_id (Candidate.id cand) (Job.id job)
                   false))
        end
    end.

Definition trigger_interview (cfg : Config) (data : InterviewTriggerIn.t)
    (env : TriggerEnv) (st : Store) : Store * Response TriggerOut :=
  match resolve_trigger cfg data env st with
  | (st1, inr resp) => (st1, resp)
  | (st1, inl (job, cand)) =>
    let inter_id := inter_uuid env in
    match interviews st1 !! inter_id with
    | Some _ => (st1, Uncaught "IntegrityError")
    | None =>
      let row :=
        Interview.mk inter_id (Job.id job) (Candidate.id cand) "calling" None []
          None in
      place_call cfg env job cand
        (set_interviews (<[inter_id := row]> (interviews st1)) st1)
    end
  end.

(** ** Sequences of requests *)

Inductive Request : Type :=
| ReqJd (jd_text file : option string) (questions : option (list string))
        (job_id : string) (now : Z)
| ReqCandidate (name phone_e164 cand_id : string)
| ReqResumeMeta (candidate_id : string) (meta : list (string * jval))
| ReqTrigger (data : InterviewTriggerIn.t) (env : TriggerEnv)
| ReqSimulate (interview_id : string) (fake_transcripts : list string)
| ReqEvent (n : option string) (status : option string)
| ReqRecord (interview_id : string) (q_idx : Z) (payload : RecordPayload)
            (download_ok : bool) (tr : string + string)
| ReqRead (interview_id : string) (reply : ScorerReply).

(** The store after one request. *)
Definition handle (cfg : Config) (r : Request) (st : Store) : Store :=
  match r with
  | ReqJd jd file qs job_id now =>
    fst (jd_to_questions cfg jd file qs job_id now st)
  | ReqCandidate name phone cid => fst (add_candidate cfg name phone cid st)
  | ReqResumeMeta cid meta => fst (attach_resume_meta cid meta st)
  | ReqTrigger data env => fst (trigger_interview cfg data env st)
  | ReqSimulate iid fake => fst (simulate_answers cfg iid fake st)
  | ReqEvent n status => fst (voice_event n status st)
  | ReqRecord iid q payload ok tr => fst (voice_record iid q payload ok tr st)
  | ReqRead iid reply => r_store (get_interview cfg iid reply st)
  end.

(** The store after a sequence of requests, served one after the other. *)
Definition run (cfg : Config) (rs : list Request) (st : Store) : Store :=
  foldl (fun st r => handle cfg r st) st rs.

(** Whether the scorer is called by a request. *)
Definition scorer_called (cfg : Config) (r : Request) (st : Store) : bool :=
  match r with
  | ReqRead iid reply =>
    bool_decide (is_Some (r_scorer_call (get_interview cfg iid reply st)))
  | _ => false
  end.

(** The number of calls to the scorer along a sequence of requests: the
    call counter on the scorer port. *)
Fixpoint scorer_calls (cfg : Config) (rs : list Request) (st : Store) : nat :=
  match rs with
  | [] => 0
  | r :: rs' =>
    (if scorer_called cfg r st then 1 else 0)
    + scorer_calls cfg rs' (handle cfg r st)
  end.

(** Field of an interview row, by id. *)
Definition status_of (st : Store) (iid : string) : option string :=
  Interview.status <$> interviews st !! iid.

Definition answers_of (st : Store) (iid : string) : list Answer :=
  default [] (Interview.answers <$> interviews st !! iid).

Definition final_recommendation_of (st : Store) (iid : string) : option string :=
  interviews st !! iid ≫= Interview.final_recommendation.

(** ** What a request does to one interview row *)

Definition event_row (status : string) (i : Interview.t) : Interview.t :=
  if terminal_report status
     && negb (String.eqb (Interview.status i) "completed")
     && negb (String.eqb status "completed")
  then Interview.with_status status i else i.

Definition record_row (st : Store) (iid : string) (q : Z)
    (payload : RecordPayload) (download_ok : bool) (tr : string + string)
    (i : Interview.t) : Interview.t :=
  if truthy_opt (payload_rec_url payload) && download_ok then
    match question_text (get_job st (Interview.job_id i)) q with
    | Some qtext =>
      Interview.with_answers
        (persisted_answers (Interview.answers i)
           (upsert_answer q qtext (default "" (payload_rec_url payload))
              ("/v1/artifacts/" +:+ audio_rel iid q) (transcript_of tr)
              (Interview.answers i))) i
    | None => i
    end
  else i.

Definition simulate_row (cfg : Config) (st : Store) (iid : string)
    (fake : list string) (i : Interview.t) : Interview.t :=
  if is_development_mode cfg then
    match get_job st (Interview.job_id i) with
    | Some job =>
      Interview.with_status "completed"
        (Interview.with_answers
           (fake_answer_records iid 0 (Job.questions job) fake) i)
    | None => i
    end
  else i.

Definition read_row (st : Store) (reply : ScorerReply) (i : Interview.t)
  : Interview.t :=
  match get_job st (Interview.job_id i), openai_score reply with
  | Some job, Some scoring =>
    if needs_scoring (Job.questions job) i then
      let scored :=
        map (apply_score (by_idx_of (per_answer scoring)))
            (sorted_by_q_idx (Interview.answers i)) in
      let i2 :=
        Interview.with_final_recommendation (recommendation scoring)
          (Interview.with_answers scored i) in
      if negb (String.eqb (Interview.status i2) "completed"
               || String.eqb (Interview.status i2) "failed")
      then Interview.with_status "completed" i2 else i2
    else i
  | _, _ => i
  end.

(** The row [iid] after request [r], given the row [i] before it. *)
Definition row_after (cfg : Config) (r : Request) (st : Store) (iid : string)
    (i : Interview.t) : Interview.t :=
  match r with
  | ReqEvent (Some n) (Some status) =>
    if bool_decide (n = iid) && truthy n then event_row status i else i
  | ReqRecord iid' q payload ok tr =>
    if bool_decide (iid' = iid) then record_row st iid q payload ok tr i else i
  | ReqSimulate iid' fake =>
    if bool_decide (iid' = iid) then simulate_row cfg st iid fake i else i
  | ReqRead iid' reply =>
    if bool_decide (iid' = iid) then read_row st reply i else i
  | _ => i
  end.

(** The requests that can move a [failed] interview [iid]: the development
    endpoint, and a call-status event reporting [timeout] or [rejected]. *)
Definition keeps_failed (iid : string) (r : Request) : bool :=
  match r with
  | ReqSimulate iid' _ => negb (bool_decide (iid' = iid))
  | ReqEvent (Some n) (Some status) =>
    negb (bool_decide (n = iid)
          && (String.eqb status "timeout" || String.eqb status "rejected"))
  | _ => true
  end.

(** ** Invariants of the answer list *)

(** No two answers of an interview carry the same question index. *)
Definition unique_indices (st : Store) : Prop :=
  forall iid i,
    interviews st !! iid = Some i -> NoDup (map q_idx (Interview.answers i)).

(** [0 <= q < len(job.questions)] *)
Definition index_in_range (job : Job.t) (q : Z) : bool :=
  (0 <=? q)%Z && (q <? Z.of_nat (length (Job.questions job)))%Z.

(** A recording callback names a question of the interview's job (as the
    callback URLs written into the call script do). *)
Definition record_in_range (st : Store) (r : Request) : bool :=
  match r with
  | ReqRecord iid q _ _ _ =>
    match interviews st !! iid with
    | Some i =>
      match get_job st (Interview.job_id i) with
      | Some job => index_in_range job q
      | None => true
      end
    | None => true
    end
  | _ => true
  end.

(** Every recording callback of the sequence does so when it arrives. *)
Fixpoint records_in_range (cfg : Config) (rs : list Request) (st : Store) : bool :=
  match rs with
  | [] => true
  | r :: rs' => record_in_range st r && records_in_range cfg rs' (handle cfg r st)
  end.

(** Every interview has its job, distinct answer indices, and only indices of
    that job's questions. *)
Definition well_indexed (st : Store) : Prop :=
  forall iid i,
    interviews st !! iid = Some i ->
    exists job,
      get_job st (Interview.job_id i) = Some job
      /\ NoDup (map q_idx (Interview.answers i))
      /\ Forall (fun q => index_in_range job q = true)
                (map q_idx (Interview.answers i)).

(** ** Scored interviews *)

(** The interview has a non-empty recommendation and an answer that carries a
    score: the negation of the second half of the scoring guard. *)
Definition settled (i : Interview.t) : bool :=
  truthy_opt (Interview.final_recommendation i)
  && existsb has_score (Interview.answers i).

(** Any request but the development endpoint on interview [iid]. *)
Definition not_simulate (iid : string) (r : Request) : bool :=
  match r with
  | ReqSimulate iid' _ => negb (bool_decide (iid' = iid))
  | _ => true
  end.

(** The scorer's answer has a non-empty recommendation and a per-answer entry
    for the index of one of the answers of [i]. *)
Definition reply_settles (i : Interview.t) (reply : ScorerReply) : bool :=
  match openai_score reply with
  | Some scoring =>
    truthy_opt (recommendation scoring)
    && existsb
         (fun a => bool_decide (is_Some (by_idx_of (per_answer scoring) !! q_idx a)))
         (Interview.answers i)
  | None => false
  end.

(** Result reads of one interview, one per scorer reply. *)
Definition reads (iid : string) (replies : list ScorerReply) : list Request :=
  map (ReqRead iid) replies.

(** A read of interview [iid] would not reach the scoring block. *)
Definition quiet (st : Store) (iid : string) : bool :=
  match interviews st !! iid with
  | Some i =>
    match get_job st (Interview.job_id i) with
    | Some job => negb (needs_scoring (Job.questions job) i)
    | None => true
    end
  | None => true
  end.

(** ** The artifact root *)

(** [p] is the directory [root] or lies below it. *)
Definition path_inside (root p : string) : bool :=
  String.eqb p root || String.prefix (root +:+ "/") p.

(** ** A small deployment, for examples *)

(** The phone numbers of the examples are in E.164 already, and their texts
    have no white space at either end, so the phone library and [str.strip]
    give back what they get. *)

Definition cfg_prod : Config :=
  mkConfig false ∅ "http://localhost:8000" "/srv" true (fun s => Some s)
    (fun s => s).

Definition cfg_dev : Config :=
  mkConfig true ∅ "http://localhost:8000" "/srv" true (fun s => Some s)
    (fun s => s).

Definition job3 : Job.t := Job.mk "j1" "Backend engineer" ["Q1"; "Q2"; "Q3"] 0.

Definition job1 : Job.t := Job.mk "j1" "Backend engineer" ["Q1"] 0.

Definition cand1 : Candidate.t := Candidate.mk "c1" "Ann" "+15550100" None.

Definition inter1 (status : string) : Interview.t :=
  Interview.mk "i1" "j1" "c1" status (Some "call-1") [] None.

(** One job with three questions, one candidate, one interview. *)
Definition store3 (status : string) : Store :=
  mkStore [job3] {["c1" := cand1]} {["i1" := inter1 status]}.

(** A recording callback for interview [i1]. *)
Definition recording (q : Z) (url t : string) : Request :=
  ReqRecord "i1" q (mkPayload (Some url) None None) true (inl t).

Definition trigger_bob : InterviewTriggerIn.t :=
  InterviewTriggerIn.mk None (Some "Bob") (Some "+15550101") None "+15550199".

(** The provider refuses the call. *)
Definition env_refused : TriggerEnv :=
  mkTriggerEnv "c2" "i2" "0a1b2c3d"
    (PostReturns (mkHttpResponse 401 "Unauthorized" None)).

(** The provider accepts the call. *)
Definition env_accepted : TriggerEnv :=
  mkTriggerEnv "c2" "i2" "0a1b2c3d"
    (PostReturns (mkHttpResponse 201 "{}" (Some (Some "call-2")))).

(** From an empty database: a job is created, an interview is triggered for
    it, and the recording for question 0 arrives. *)
Definition first_requests : list Request :=
  [ReqJd (Some "Backend engineer") None (Some ["Q1"; "Q2"; "Q3"]) "j1" 0;
   ReqTrigger trigger_bob env_accepted;
   ReqRecord "i2" 0 (mkPayload (Some "https://rec/0") None None) true (inl "a0")].

(** The row of interview [iid], or a blank row when there is none. *)
Definition row_of (st : Store) (iid : string) : Interview.t :=
  default (Interview.mk iid "" "" "created" None [] None) (interviews st !! iid).

(** A scorer answer with a score for question 0 and the recommendation Yes. *)
Definition reply_yes : ScorerReply :=
  ReplyJson (mkScoring [mkPerAnswer (Some 0%Z) (JNum 4) (JStr "clear")] (Some "Yes")).

(** ** Invariants of the tables *)

(** Every candidate and every interview row is stored under its own id, and
    the job and the candidate an interview names are rows of the store. *)
Definition references_ok (st : Store) : Prop :=
  (forall k c, candidates st !! k = Some c -> Candidate.id c = k)
  /\ (forall iid i,
        interviews st !! iid = Some i ->
        Interview.id i = iid
        /\ is_Some (get_job st (Interview.job_id i))
        /\ is_Some (candidates st !! Interview.candidate_id i)).

(** The strings the handlers write into [Interview.status]. *)
Definition written_status (s : string) : bool :=
  String.eqb s "calling" || String.eqb s "in_progress"
  || String.eqb s "completed" || String.eqb s "failed"
  || String.eqb s "timeout" || String.eqb s "rejected".

(** The reports that [voice_event] writes: one of the four strings, and not
    [completed]. *)
Definition failure_report (status : option string) : bool :=
  match status with
  | Some s =>
    String.eqb s "failed" || String.eqb s "timeout" || String.eqb s "rejected"
  | None => false
  end.

(** ** Simulated answers: [generate_fake_answers] *)

(** [random.choice(l)], for the index [k] that the generator draws. *)
Definition choice (l : list string) (k : nat) : string :=
  default "" (l !! (k mod length l)).

Definition skills : list string :=
  ["Python"; "FastAPI"; "SQL"; "REST APIs"; "Docker"; "AWS"; "Git"; "testing"].

Definition companies : list string :=
  ["a fintech startup"; "an e-commerce company"; "a healthcare firm";
   "a logistics company"].

Definition technologies : list string :=
  ["microservices"; "cloud infrastructure"; "database optimization";
   "API development"].

(** The keyword arguments of [template.format(...)]. *)
Record FakeFields : Type := mkFakeFields {
  f_years : string;
  f_skill : string;
  f_company : string;
  f_project_type : string;
  f_technology : string;
  f_use_case : string;
  f_related_tech : string;
  f_aspect : string;
  f_benefit : string;
  f_responsibility : string;
  f_tool : string;
  f_methodology : string;
  f_quality_measure : string;
  f_challenge : string;
  f_solution : string;
  f_outcome : string;
  f_skill_1 : string;
  f_skill_2 : string;
  f_skill_3 : string;
  f_strength : string;
  f_learning_area : string
}.

(** The twenty-one [random.choice] calls of one round of the loop, in the
    order they are made; [pick c] is the index drawn by call number [c]. *)
Definition fake_fields (pick : nat -> nat) : FakeFields :=
  mkFakeFields
    (choice ["2"; "3"; "4"; "5"] (pick 0))
    (choice skills (pick 1))
    (choice companies (pick 2))
    (choice ["backend"; "full-stack"; "API"; "data"] (pick 3))
    (choice technologies (pick 4))
    (choice ["build scalable APIs"; "optimize database queries";
             "implement authentication"] (pick 5))
    (choice ["PostgreSQL"; "Redis"; "Kubernetes"; "Jenkins"] (pick 6))
    (choice ["problem-solving"; "optimization"; "architecture design"] (pick 7))
    (choice ["better performance"; "cleaner code"; "faster deployment"] (pick 8))
    (choice ["API development"; "database design"; "code reviews"] (pick 9))
    (choice ["SQLAlchemy"; "Pydantic"; "pytest"; "Docker"] (pick 10))
    (choice ["TDD"; "agile practices"; "code reviews"; "documentation"] (pick 11))
    (choice ["high code coverage"; "proper error handling";
             "security best practices"] (pick 12))
    (choice ["performance bottlenecks"; "complex business logic";
             "scaling issues"] (pick 13))
    (choice ["refactor the architecture"; "implement caching";
             "optimize queries"] (pick 14))
    (choice ["50% performance improvement"; "reduced latency";
             "better user experience"] (pick 15))
    (choice (take 3 skills) (pick 16))
    (choice (take 3 (drop 3 skills)) (pick 17))
    (choice (drop 6 skills) (pick 18))
    (choice ["backend development"; "API design"; "database optimization"]
            (pick 19))
    (choice ["machine learning"; "DevOps"; "cloud architecture"] (pick 20)).

(** [fake_templates[k].format(...)] with the keyword arguments [f]. *)
Definition fake_template (k : nat) (f : FakeFields) : string :=
  match k with
  | 0 =>
    "I have " +:+ f_years f +:+ " years of experience with " +:+ f_skill f
    +:+ ". In my previous role at " +:+ f_company f
    +:+ ", I worked extensively on " +:+ f_project_type f
    +:+ " projects using " +:+ f_technology f +:+ "."
  | 1 =>
    "Yes, I'm very familiar with " +:+ f_skill f +:+ ". I've used it to "
    +:+ f_use_case f +:+ " and have experience with " +:+ f_related_tech f
    +:+ ". I particularly enjoy " +:+ f_aspect f +:+ " because it allows for "
    +:+ f_benefit f +:+ "."
  | 2 =>
    "In my current position, I handle " +:+ f_responsibility f +:+ " using "
    +:+ f_tool f +:+ ". My approach involves " +:+ f_methodology f
    +:+ " and I always ensure " +:+ f_quality_measure f +:+ "."
  | 3 =>
    "I've worked on several " +:+ f_project_type f
    +:+ " projects. The most challenging one involved " +:+ f_challenge f
    +:+ " where I had to " +:+ f_solution f +:+ ". The result was "
    +:+ f_outcome f +:+ "."
  | _ =>
    "My experience includes " +:+ f_skill_1 f +:+ ", " +:+ f_skill_2 f
    +:+ ", and " +:+ f_skill_3 f +:+ ". I'm particularly strong in "
    +:+ f_strength f +:+ " and have been learning " +:+ f_learning_area f
    +:+ "."
  end.

(** [generate_fake_answers]; [draw i c] is the index drawn by the [c]-th
    [random.choice] call while answering question number [i]. *)
Definition generate_fake_answers (questions : list string)
    (draw : nat -> nat -> nat) : list string :=
  imap (fun i _ => fake_template (i mod 5) (fake_fields (draw i))) questions.

(** ** The call script (NCCO) of [trigger_interview] *)

Inductive NccoAction : Type :=
| NccoTalk (text : string)
| NccoRecord (beepStart : bool) (endOnSilence : Z) (format : string)
             (eventUrl : list string).

(** The two actions the loop adds for question number [idx]. *)
Definition question_actions (cfg : Config) (inter_id : string) (idx : nat)
    (q : string) : list NccoAction :=
  [NccoTalk ("Question " +:+ str_of_int (Z.of_nat idx + 1) +:+ ". " +:+ q);
   NccoRecord true 3 "mp3"
     [PUBLIC_BASE_URL cfg +:+ "/v1/voice/record?interview_id=" +:+ inter_id
        +:+ "&q_idx=" +:+ str_of_int (Z.of_nat idx)]].

(** [record_actions] as saved to [ncco_{inter_id}.json]. *)
Definition record_actions (cfg : Config) (inter_id : string)
    (questions : list string) : list NccoAction :=
  mjoin (imap (question_actions cfg inter_id) questions)
  ++ [NccoTalk "Thanks. This concludes the interview. Goodbye."].

(** ** Deliveries *)

(** One recording callback that reaches the handler with its recording
    fetched: the index, the body, and the transcriber's outcome. *)
Record Delivery : Type := mkDelivery {
  d_q_idx : Z;
  d_payload : RecordPayload;
  d_tr : string + string
}.

Definition deliver (iid : string) (d : Delivery) : Request :=
  ReqRecord iid (d_q_idx d) (d_payload d) true (d_tr d).

(** The answer dict that [voice_record] builds for a delivery. *)
Definition delivered_answer (job : Job.t) (iid : string) (d : Delivery) : Answer :=
  mkAnswer (d_q_idx d)
    (default "" (question_text (Some job) (d_q_idx d)))
    (default "" (payload_rec_url (d_payload d)))
    ("/v1/artifacts/" +:+ audio_rel iid (d_q_idx d))
    (transcript_of (d_tr d)) None None.

(** ** Path components *)

(** The string contains a ["/"]. *)
Fixpoint has_sep (s : string) : bool :=
  match s with
  | EmptyString => false
  | String c s' => String.eqb (String c EmptyString) "/" || has_sep s'
  end.

(** A proper directory or file name: not empty, not ["."], not [".."], and
    without ["/"]. *)
Definition clean_component (c : string) : bool :=
  truthy c && negb (String.eqb c ".") && negb (String.eqb c "..")
  && negb (has_sep c).

(** The components that [normpath] keeps when none is [".."]. *)
Definition kept_component (c : string) : bool :=
  negb (String.eqb c "" || String.eqb c ".").

(** ** More of the small deployment *)

(** Production mode without the provider's application id or key. *)
Definition cfg_unconfigured : Config :=
  mkConfig false ∅ "http://localhost:8000" "/srv" false (fun s => Some s)
    (fun s => s).

(** Production mode with a whitelist of one number. *)
Definition cfg_whitelist : Config :=
  mkConfig false {["+15550100"]} "http://localhost:8000" "/srv" true
    (fun s => Some s) (fun s => s).

(** A trigger for a candidate id that does not exist. *)
Definition trigger_unknown : InterviewTriggerIn.t :=
  InterviewTriggerIn.mk (Some "nobody") None None None "+15550199".

(** The provider accepts, with a body that is not JSON. *)
Definition env_garbled : TriggerEnv :=
  mkTriggerEnv "c2" "i2" "0a1b2c3d"
    (PostReturns (mkHttpResponse 200 "<html>" None)).

(** The provider does not answer within the time the client waits. *)
Definition env_timeout : TriggerEnv :=
  mkTriggerEnv "c2" "i2" "0a1b2c3d" (PostRaises "ConnectTimeout").

Definition delivery (q : Z) (url t : string) : Delivery :=
  mkDelivery q (mkPayload (Some url) None None) (inl t).

(** The recording callback of question [q] of interview [i2]. *)
Definition recording2 (q : Z) (url : string) (tr : string + string) : Request :=
  ReqRecord "i2" q (mkPayload (Some url) None None) true tr.

(** From an empty database, in production: a job with three questions. *)
Definition store_job : Store :=
  run cfg_prod
    [ReqJd (Some "Backend engineer") None (Some ["Q1"; "Q2"; "Q3"]) "j1" 0]
    empty_store.

(** From an empty database, in production: a job with three questions is
    created and an interview is triggered for it, which the provider
    accepts. *)
Definition store_called : Store :=
  run cfg_prod
    [ReqJd (Some "Backend engineer") None (Some ["Q1"; "Q2"; "Q3"]) "j1" 0;
     ReqTrigger trigger_bob env_accepted]
    empty_store.

(** The same for a job with one question, followed by the recording of that
    question: interview [i2] has an answer for the one question. *)
Definition store_answered : Store :=
  run cfg_prod
    [ReqJd (Some "Backend engineer") None (Some ["Q1"]) "j1" 0;
     ReqTrigger trigger_bob env_accepted;
     recording2 0 "https://rec/0" (inl "a0")]
    empty_store.

(** [store_answered] after a read that scored it. *)
Definition store_scored : Store :=
  run cfg_prod [ReqRead "i2" reply_yes] store_answered.

(** From an empty database, in production: a job for which the question
    generator returned no question, and an interview triggered for it. *)
Definition store_no_question : Store :=
  run cfg_prod
    [ReqJd (Some "Backend engineer") None (Some []) "j1" 0;
     ReqTrigger trigger_bob env_accepted]
    empty_store.

(** The texts the development endpoint draws for three questions. *)
Definition fake3 : list string :=
  generate_fake_answers ["Q1"; "Q2"; "Q3"] (fun i c => i + c).

(** From an empty database, in development mode: a job with three questions,
    an interview for it, and the simulated answers. *)
Definition store_simulated : Store :=
  run cfg_dev
    [ReqJd (Some "Backend engineer") None (Some ["Q1"; "Q2"; "Q3"]) "j1" 0;
     ReqTrigger trigger_bob env_accepted;
     ReqSimulate "i2" fake3]
    empty_store.

(** [store_simulated] after a read that scored it. *)
Definition store_simulated_scored : Store :=
  run cfg_dev [ReqRead "i2" reply_yes] store_simulated.

(** * Properties *)

(** ** Rows under a request *)

Lemma with_status_same (i : Interview.t) :
  Interview.with_status (Interview.status i) i = i.
Proof. by destruct i. Qed.

Lemma set_interviews_same (st : Store) : set_interviews (interviews st) st = st.
Proof. by destruct st. Qed.

Lemma voice_event_row cfg n status st iid i :
  interviews st !! iid = Some i ->
  interviews (fst (voice_event n status st)) !! iid
  = Some (row_after cfg (ReqEvent n status) st iid i).
Proof.
  intros Hi. unfold voice_event, row_after, event_row. simpl.
  destruct n as [n|], status as [status|]; simpl; try done.
  destruct (truthy n) eqn:Hn; rewrite ?andb_false_r; simpl; [|done].
  rewrite andb_true_r.
  destruct (terminal_report status) eqn:Ht; simpl.
  2:{ by case_bool_decide. }
  case_bool_decide as Hni.
  - subst n. rewrite Hi.
    destruct (String.eqb (Interview.status i) "completed"); simpl; [done|].
    destruct (String.eqb status "completed"); simpl.
    + by rewrite lookup_insert_eq, with_status_same.
    + by rewrite lookup_insert_eq.
  - destruct (interviews st !! n) as [inter|]; [|done].
    destruct (String.eqb (Interview.status inter) "completed"); simpl; [done|].
    by rewrite lookup_insert_ne.
Qed.

Lemma voice_record_row cfg iid' q payload ok tr st iid i :
  interviews st !! iid = Some i ->
  interviews (fst (voice_record iid' q payload ok tr st)) !! iid
  = Some (row_after cfg (ReqRecord iid' q payload ok tr) st iid i).
Proof.
  intros Hi. unfold voice_record, row_after, record_row.
  destruct (truthy_opt (payload_rec_url payload)); simpl; [|by case_bool_decide].
  destruct ok; simpl; [|by case_bool_decide].
  case_bool_decide as Hid.
  - subst iid'. rewrite Hi.
    destruct (question_text _ q); simpl; [|done].
    by rewrite lookup_insert_eq.
  - destruct (interviews st !! iid') as [inter|]; [|done].
    destruct (question_text _ q); simpl; [|done].
    by rewrite lookup_insert_ne.
Qed.

Lemma simulate_answers_row cfg iid' fake st iid i :
  interviews st !! iid = Some i ->
  interviews (fst (simulate_answers cfg iid' fake st)) !! iid
  = Some (row_after cfg (ReqSimulate iid' fake) st iid i).
Proof.
  intros Hi. unfold simulate_answers, row_after, simulate_row.
  destruct (is_development_mode cfg); simpl; [|by case_bool_decide].
  case_bool_decide as Hid.
  - subst iid'. rewrite Hi.
    destruct (get_job st _); simpl; [|done].
    by rewrite lookup_insert_eq.
  - destruct (interviews st !! iid') as [inter|]; [|done].
    destruct (get_job st _); simpl; [|done].
    by rewrite lookup_insert_ne.
Qed.

(** The store a read leaves is the row update [read_row] and nothing else. *)
Lemma get_interview_store cfg iid reply st :
  r_store (get_interview cfg iid reply st)
  = match interviews st !! iid with
    | Some i =>
      match get_job st (Interview.job_id i), openai_score reply with
      | Some job, Some _ =>
        if needs_scoring (Job.questions job) i
        then set_interviews (<[iid := read_row st reply i]> (interviews st)) st
        else st
      | _, _ => st
      end
    | None => st
    end.
Proof.
  unfold get_interview, read_row.
  destruct (interviews st !! iid) as [i|]; [|done].
  destruct (get_job st _) as [job|]; [|done].
  destruct (needs_scoring _ i), (openai_score reply);
    destruct (candidates st !! _); done.
Qed.

Lemma get_interview_row cfg iid' reply st iid i :
  interviews st !! iid = Some i ->
  interviews (r_store (get_interview cfg iid' reply st)) !! iid
  = Some (row_after cfg (ReqRead iid' reply) st iid i).
Proof.
  intros Hi. rewrite get_interview_store. unfold row_after.
  case_bool_decide as Hid.
  - subst iid'. rewrite Hi. unfold read_row.
    destruct (get_job st _) as [job|]; [|done].
    destruct (openai_score reply); [|done].
    destruct (needs_scoring _ i); [|done].
    cbn [interviews set_interviews]. by rewrite lookup_insert_eq.
  - destruct (interviews st !! iid') as [i'|]; [|done].
    destruct (get_job st _) as [job|]; [|done].
    destruct (openai_score reply); [|done].
    destruct (needs_scoring _ i'); [|done].
    cbn [interviews set_interviews]. by rewrite lookup_insert_ne.
Qed.

(** Resolving the job and candidate of a trigger leaves jobs and interviews
    alone. *)
Lemma resolve_trigger_frame cfg data env st :
  jobs (fst (resolve_trigger cfg data env st)) = jobs st
  /\ interviews (fst (resolve_trigger cfg data env st)) = interviews st.
Proof.
  unfold resolve_trigger, add_candidate_row.
  split; repeat (case_match; simplify_eq; simpl; try done).
Qed.

Lemma get_job_id st k job : get_job st k = Some job -> Job.id job = k.
Proof.
  unfold get_job. intros H. apply find_some in H as [_ H].
  by apply String.eqb_eq in H.
Qed.

Lemma latest_of_elem rows job : latest_of rows = Some job -> job ∈ rows.
Proof.
  revert job. induction rows as [|j older IH]; intros job; [done|].
  cbn [latest_of]. destruct (latest_of older) as [k|].
  - case_match; intros [= <-]; [left|right; by apply IH].
  - intros [= <-]. left.
Qed.

Lemma get_job_elem st job : job ∈ jobs st -> is_Some (get_job st (Job.id job)).
Proof.
  unfold get_job. induction (jobs st) as [|j l IH]; intros Hin.
  - by apply elem_of_nil in Hin.
  - cbn [find]. destruct (String.eqb (Job.id j) (Job.id job)) eqn:E; [by eexists|].
    apply elem_of_cons in Hin as [->|Hin]; [|by apply IH].
    by rewrite String.eqb_refl in E.
Qed.

Lemma get_latest_job_get st job :
  get_latest_job st = Some job -> is_Some (get_job st (Job.id job)).
Proof. intros H. by apply get_job_elem, latest_of_elem. Qed.

(** The job a trigger resolves has a row stored under its id. *)
Lemma resolve_trigger_job cfg data env st job cand :
  snd (resolve_trigger cfg data env st) = inl (job, cand) ->
  is_Some (get_job st (Job.id job)).
Proof.
  unfold resolve_trigger.
  set (j := if truthy_opt _ then _ else _).
  assert (Hj : forall x, j = Some x -> is_Some (get_job st (Job.id x))).
  { intros x. unfold j. case_match.
    - intros Hx. rewrite (get_job_id _ _ _ Hx). by eexists.
    - apply get_latest_job_get. }
  destruct j as [x|]; [|done]. specialize (Hj x eq_refl).
  unfold add_candidate_row.
  repeat (case_match; simplify_eq; simpl; try done); by intros [= <- <-].
Qed.

Lemma update_interview_lookup k f st iid :
  interviews (update_interview k f st) !! iid
  = if bool_decide (k = iid) then f <$> interviews st !! iid
    else interviews st !! iid.
Proof.
  unfold update_interview. case_bool_decide as Hk.
  - subst k. destruct (interviews st !! iid) eqn:E; simpl; [|done].
    by rewrite lookup_insert_eq.
  - destruct (interviews st !! k); simpl; [|done]. by rewrite lookup_insert_ne.
Qed.

Lemma update_interview_jobs k f st : jobs (update_interview k f st) = jobs st.
Proof. unfold update_interview. by destruct (interviews st !! k). Qed.

(** The rows [place_call] leaves: only the row [inter_uuid env] may differ. *)
Lemma place_call_lookup cfg env job cand st iid :
  iid <> inter_uuid env ->
  interviews (fst (place_call cfg env job cand st)) !! iid = interviews st !! iid.
Proof.
  intros Hne. unfold place_call.
  repeat (case_match; simpl; try done);
    rewrite update_interview_lookup; case_bool_decide; congruence.
Qed.

Lemma place_call_jobs cfg env job cand st :
  jobs (fst (place_call cfg env job cand st)) = jobs st.
Proof.
  unfold place_call.
  repeat (case_match; simpl; try done); apply update_interview_jobs.
Qed.

Lemma trigger_interview_row cfg data env st iid i :
  interviews st !! iid = Some i ->
  interviews (fst (trigger_interview cfg data env st)) !! iid = Some i.
Proof.
  intros Hi. unfold trigger_interview.
  pose proof (resolve_trigger_frame cfg data env st) as [_ Hint].
  destruct (resolve_trigger cfg data env st) as [st1 [[job cand]|resp]];
    simpl in *; [|by rewrite Hint].
  destruct (interviews st1 !! inter_uuid env) eqn:E; simpl; [by rewrite Hint|].
  assert (iid <> inter_uuid env) by (intros ->; congruence).
  rewrite place_call_lookup by done. simpl.
  rewrite lookup_insert_ne by done. by rewrite Hint.
Qed.

Lemma jd_to_questions_interviews cfg jd file qs job_id now st :
  interviews (fst (jd_to_questions cfg jd file qs job_id now st)) = interviews st.
Proof. unfold jd_to_questions. repeat (case_match; simpl; try done). Qed.

Lemma add_candidate_interviews cfg name phone cid st :
  interviews (fst (add_candidate cfg name phone cid st)) = interviews st.
Proof.
  unfold add_candidate, add_candidate_row.
  repeat (case_match; simplify_eq; simpl; try done).
Qed.

Lemma attach_resume_meta_interviews cid meta st :
  interviews (fst (attach_resume_meta cid meta st)) = interviews st.
Proof. unfold attach_resume_meta. by case_match. Qed.

(** Every request maps an existing row to [row_after] of it: no request
    deletes an interview. *)
Lemma handle_row cfg r st iid i :
  interviews st !! iid = Some i ->
  interviews (handle cfg r st) !! iid = Some (row_after cfg r st iid i).
Proof.
  intros Hi. destruct r; unfold handle.
  - by rewrite jd_to_questions_interviews.
  - by rewrite add_candidate_interviews.
  - by rewrite attach_resume_meta_interviews.
  - by apply trigger_interview_row.
  - by apply simulate_answers_row.
  - by apply voice_event_row.
  - by apply voice_record_row.
  - by apply get_interview_row.
Qed.

(** ** Status of a finished interview *)

Lemma status_of_Some st iid s :
  status_of st iid = Some s <->
  exists i, interviews st !! iid = Some i /\ Interview.status i = s.
Proof.
  unfold status_of. destruct (interviews st !! iid) as [i|]; simpl.
  - split; [intros [= <-]; eauto | intros (? & [= <-] & <-); done].
  - split; [done | intros (? & ? & _); done].
Qed.

(** A row that is [completed] stays [completed] under every request. *)
Lemma row_after_completed cfg r st iid i :
  Interview.status i = "completed" ->
  Interview.status (row_after cfg r st iid i) = "completed".
Proof.
  intros Hs. destruct r; simpl; try done.
  - case_bool_decide; [|done]. unfold simulate_row.
    repeat (case_match; try done).
  - destruct n as [n|], status as [status|]; try done.
    case_match; [|done]. unfold event_row. rewrite Hs. simpl.
    by rewrite andb_false_r.
  - case_bool_decide; [|done]. unfold record_row.
    repeat (case_match; try done).
  - case_bool_decide; [|done]. unfold read_row.
    repeat (case_match; try done); simpl in *; rewrite Hs in *; done.
Qed.

Lemma row_after_failed cfg r st iid i :
  Interview.status i = "failed" ->
  keeps_failed iid r = true ->
  Interview.status (row_after cfg r st iid i) = "failed".
Proof.
  intros Hs Hk. destruct r; simpl in *; try done.
  - apply negb_true_iff in Hk. by rewrite Hk.
  - destruct n as [n|], status as [status|]; try done.
    case_bool_decide; simpl in *; [|done].
    destruct (truthy n); [|done].
    apply negb_true_iff, orb_false_iff in Hk as [Ht Hr].
    unfold event_row, terminal_report. rewrite Ht, Hr, !orb_false_r.
    destruct (String.eqb_spec status "completed") as [->|Hc]; simpl.
    + by rewrite andb_false_r.
    + destruct (String.eqb_spec status "failed") as [->|Hf]; simpl; [|done].
      by case_match.
  - case_bool_decide; [|done]. unfold record_row.
    repeat (case_match; try done).
  - case_bool_decide; [|done]. unfold read_row.
    repeat (case_match; try done); simpl in *; rewrite Hs in *; done.
Qed.

Lemma run_cons cfg r rs st : run cfg (r :: rs) st = run cfg rs (handle cfg r st).
Proof. done. Qed.

(** C1 (as amended): a [completed] interview stays [completed] under every
    sequence of requests (call-status events, recording callbacks, result
    reads, simulate-answers, and the rest); a [failed] interview stays
    [failed] under every sequence of requests other than simulate-answers for
    it and call-status events reporting [timeout] or [rejected] for it. *)
Theorem terminal_status_stable cfg rs st iid s :
  status_of st iid = Some s ->
  s = "completed" \/ (s = "failed" /\ forallb (keeps_failed iid) rs = true) ->
  status_of (run cfg rs st) iid = Some s.
Proof.
  revert st. induction rs as [|r rs IH]; intros st Hst Hs; [done|].
  rewrite run_cons. apply IH.
  - apply status_of_Some in Hst as (i & Hi & Hsi).
    apply status_of_Some. exists (row_after cfg r st iid i).
    split; [by apply handle_row|].
    destruct Hs as [->|[-> Hk]].
    + by apply row_after_completed.
    + simpl in Hk. apply andb_true_iff in Hk as [Hk _].
      by apply row_after_failed.
  - destruct Hs as [->|[-> Hk]]; [by left|right].
    simpl in Hk. apply andb_true_iff in Hk as [_ Hk]. done.
Qed.

(** ** Rows and jobs that requests cannot touch *)

Lemma insert_existing_None (m : gmap string Interview.t) k v iid :
  is_Some (m !! k) -> m !! iid = None -> <[k := v]> m !! iid = None.
Proof.
  intros [x Hx] Hn. rewrite lookup_insert_ne; [done|]. intros ->. congruence.
Qed.

(** Only a trigger creates an interview row. *)
Lemma handle_None cfg r st iid :
  (forall data env, r <> ReqTrigger data env) ->
  interviews st !! iid = None ->
  interviews (handle cfg r st) !! iid = None.
Proof.
  intros Hr Hn. destruct r; unfold handle.
  - by rewrite jd_to_questions_interviews.
  - by rewrite add_candidate_interviews.
  - by rewrite attach_resume_meta_interviews.
  - by destruct (Hr data env).
  - unfold simulate_answers.
    repeat (case_match; simpl; try done); by apply insert_existing_None.
  - unfold voice_event.
    repeat (case_match; simpl; try done); by apply insert_existing_None.
  - unfold voice_record.
    repeat (case_match; simpl; try done); by apply insert_existing_None.
  - rewrite get_interview_store.
    repeat (case_match; simpl; try done); by apply insert_existing_None.
Qed.

(** [place_call] changes the status and the call id of the new row, nothing
    else. *)
Lemma place_call_row cfg env job cand st i :
  interviews st !! inter_uuid env = Some i ->
  exists s c,
    interviews (fst (place_call cfg env job cand st)) !! inter_uuid env
    = Some (Interview.with_status s (Interview.with_provider_call_id c i)).
Proof.
  intros Hi. unfold place_call.
  repeat (case_match; simpl; try done);
    rewrite ?update_interview_lookup, ?bool_decide_eq_true_2, ?Hi by done;
    simpl;
    first [ by eexists _, _
          | exists (Interview.status i), (Interview.provider_call_id i);
            by destruct i
          | exists "failed", (Interview.provider_call_id i); by destruct i ].
Qed.

(** A row that a request creates has no answers and no recommendation, and
    its job is in the store. *)
Lemma handle_new_row cfg r st iid i :
  interviews st !! iid = None ->
  interviews (handle cfg r st) !! iid = Some i ->
  Interview.answers i = []
  /\ Interview.final_recommendation i = None
  /\ is_Some (get_job (handle cfg r st) (Interview.job_id i)).
Proof.
  intros Hn Hi.
  destruct r; try (rewrite handle_None in Hi; [done| by intros | done]).
  unfold handle, trigger_interview in *.
  pose proof (resolve_trigger_frame cfg data env st) as [Hjobs Hint].
  pose proof (resolve_trigger_job cfg data env st) as Hjob.
  destruct (resolve_trigger cfg data env st) as [st1 [[job cand]|resp]];
    simpl in *; [|congruence].
  specialize (Hjob job cand eq_refl).
  destruct (interviews st1 !! inter_uuid env) eqn:E; simpl in *; [congruence|].
  destruct (decide (iid = inter_uuid env)) as [->|Hne].
  - set (row := Interview.mk _ _ _ _ _ _ _) in *.
    set (st2 := set_interviews _ st1) in *.
    destruct (place_call_row cfg env job cand st2 row) as (s & c & Hrow).
    { subst st2. simpl. by rewrite lookup_insert_eq. }
    rewrite Hrow in Hi. injection Hi as <-. simpl.
    split_and!; [done..|].
    unfold get_job in *. rewrite place_call_jobs. subst st2. simpl.
    by rewrite Hjobs.
  - rewrite place_call_lookup in Hi by done. simpl in Hi.
    rewrite lookup_insert_ne in Hi by done. congruence.
Qed.

(** Jobs are never changed or removed. *)
Lemma handle_get_job cfg r st k j :
  get_job st k = Some j -> get_job (handle cfg r st) k = Some j.
Proof.
  intros Hj.
  assert (Hsame : jobs (handle cfg r st) = jobs st -> get_job (handle cfg r st) k = Some j).
  { unfold get_job in *. by intros ->. }
  destruct r; unfold handle.
  - unfold jd_to_questions.
    repeat (case_match; simpl; try done);
      unfold get_job in *; simpl;
      (destruct (String.eqb_spec job_id k) as [->|Hne]; [congruence|done]).
  - apply Hsame. unfold handle, add_candidate, add_candidate_row.
    repeat (case_match; simplify_eq; simpl; try done).
  - apply Hsame. unfold handle, attach_resume_meta. by case_match.
  - apply Hsame. unfold handle, trigger_interview.
    pose proof (resolve_trigger_frame cfg data env st) as [Hjobs _].
    destruct (resolve_trigger cfg data env st) as [st1 [[job cand]|resp]];
      simpl in *; [|done].
    destruct (interviews st1 !! inter_uuid env); simpl; [done|].
    by rewrite place_call_jobs.
  - apply Hsame. unfold handle, simulate_answers.
    repeat (case_match; simpl; try done).
  - apply Hsame. unfold handle, voice_event.
    repeat (case_match; simpl; try done).
  - apply Hsame. unfold handle, voice_record.
    repeat (case_match; simpl; try done).
  - apply Hsame. unfold handle. rewrite get_interview_store.
    repeat (case_match; simpl; try done).
Qed.

Lemma row_after_job_id cfg r st iid i :
  Interview.job_id (row_after cfg r st iid i) = Interview.job_id i.
Proof.
  destruct r; simpl; try done.
  - unfold simulate_row. repeat (case_match; try done).
  - unfold event_row. repeat (case_match; try done).
  - unfold record_row. repeat (case_match; try done).
  - unfold read_row. repeat (case_match; try done).
Qed.

(** ** The answer list *)

Lemma insert_by_q_idx_perm a l : insert_by_q_idx a l ≡ₚ a :: l.
Proof.
  induction l as [|b l IH]; simpl; [done|].
  case_match; [done|]. rewrite IH. apply Permutation_swap.
Qed.

(** Sorting reorders the answers and nothing else. *)
Lemma sorted_by_q_idx_perm l : sorted_by_q_idx l ≡ₚ l.
Proof.
  induction l as [|a l IH]; simpl; [done|].
  rewrite insert_by_q_idx_perm. by rewrite IH.
Qed.

Lemma apply_score_q_idx m a : q_idx (apply_score m a) = q_idx a.
Proof. unfold apply_score. by case_match. Qed.

Lemma map_apply_score_q_idx m l :
  map q_idx (map (apply_score m) l) = map q_idx l.
Proof.
  rewrite map_map. apply map_ext. intros a. apply apply_score_q_idx.
Qed.

(** The simulated answers are numbered from [idx] upwards, one per question
    at most. *)
Lemma fake_answer_records_q_idx iid idx qs ts :
  map q_idx (fake_answer_records iid idx qs ts)
  = seqZ idx (Z.of_nat (min (length qs) (length ts))).
Proof.
  revert idx ts. induction qs as [|q qs IH]; intros idx [|t ts]; try done.
  cbn [fake_answer_records map length Nat.min q_idx].
  rewrite IH, Nat2Z.inj_succ, (seqZ_cons idx) by lia.
  by rewrite Z.pred_succ.
Qed.

(** Distinct indices below [n] are at most [n] many. *)
Lemma distinct_indices_bound (l : list Z) (n : nat) :
  NoDup l -> Forall (fun x => (0 <= x < Z.of_nat n)%Z) l -> length l <= n.
Proof.
  intros Hnd Hall.
  rewrite <- (Nat2Z.id n), <- (length_seqZ 0 (Z.of_nat n)).
  apply submseteq_length, NoDup_submseteq; [done|].
  intros x Hx. apply elem_of_seqZ.
  rewrite Forall_forall in Hall. specialize (Hall x Hx). lia.
Qed.

(** ** Indices of the answers under a request *)

(** The indices of a row after a request are the old ones reordered, or the
    old ones with one new index at the end (a recording for an interview that
    had no answer), or [0 .. k-1] for some [k] up to the number of questions
    (the development endpoint). *)
Lemma row_after_q_idx cfg r st iid i :
  let l := map q_idx (Interview.answers i) in
  let l' := map q_idx (Interview.answers (row_after cfg r st iid i)) in
  l' ≡ₚ l
  \/ (exists q payload ok tr,
        r = ReqRecord iid q payload ok tr /\ (q ∉ l) /\ l' = l ++ [q]
        /\ is_Some (question_text (get_job st (Interview.job_id i)) q))
  \/ (exists fake job,
        r = ReqSimulate iid fake /\ get_job st (Interview.job_id i) = Some job
        /\ l' = seqZ 0 (Z.of_nat (min (length (Job.questions job)) (length fake)))).
Proof.
  intros l l'. subst l l'.
  destruct r; simpl; try (by left).
  - case_bool_decide as Hid; [subst|by left]. unfold simulate_row.
    destruct (is_development_mode cfg); [|by left].
    destruct (get_job st _) as [job|] eqn:Hj; [|by left].
    right; right. exists fake_transcripts, job. simpl.
    by rewrite fake_answer_records_q_idx.
  - destruct n as [n|], status as [status|]; try (by left).
    case_match; [|by left]. unfold event_row. case_match; by left.
  - case_bool_decide as Hid; [subst|by left]. unfold record_row.
    case_match; [|by left].
    destruct (question_text _ q_idx0) as [qt|] eqn:Hq; [|by left].
    simpl. destruct (Interview.answers i) as [|a l]; [|by left].
    right; left. exists q_idx0, payload, download_ok, tr.
    split_and!; [done|apply not_elem_of_nil|done|done].
  - case_bool_decide as Hid; [subst|by left]. unfold read_row.
    repeat (case_match; try (by left)); simpl; left;
      by rewrite map_apply_score_q_idx, sorted_by_q_idx_perm.
Qed.

Lemma row_after_NoDup cfg r st iid i :
  NoDup (map q_idx (Interview.answers i)) ->
  NoDup (map q_idx (Interview.answers (row_after cfg r st iid i))).
Proof.
  intros Hnd.
  destruct (row_after_q_idx cfg r st iid i)
    as [Hp|[(q & ? & ? & ? & _ & Hq & -> & _)|(? & ? & _ & _ & ->)]].
  - by rewrite Hp.
  - apply NoDup_app. split_and!; [done| |apply NoDup_singleton].
    intros z Hz ->%list_elem_of_singleton. done.
  - apply NoDup_seqZ.
Qed.

Lemma unique_indices_handle cfg r st :
  unique_indices st -> unique_indices (handle cfg r st).
Proof.
  intros Hu iid i' Hi'.
  destruct (interviews st !! iid) as [i|] eqn:Hi.
  - rewrite (handle_row cfg r st iid i Hi) in Hi'. injection Hi' as <-.
    apply row_after_NoDup. by eapply Hu.
  - destruct (handle_new_row cfg r st iid i' Hi Hi') as (-> & _). constructor.
Qed.

Lemma unique_indices_run cfg rs st :
  unique_indices st -> unique_indices (run cfg rs st).
Proof.
  revert st. induction rs as [|r rs IH]; intros st Hu; [done|].
  rewrite run_cons. by apply IH, unique_indices_handle.
Qed.

Lemma unique_indices_empty : unique_indices empty_store.
Proof. intros iid i Hi. simpl in Hi. by rewrite lookup_empty in Hi. Qed.

(** X27: starting from an empty database, after any sequence of requests
    the question indices of the answers of every interview are pairwise
    distinct: no request stores two answers for one question. *)
Theorem answer_indices_unique cfg rs :
  unique_indices (run cfg rs empty_store).
Proof. apply unique_indices_run, unique_indices_empty. Qed.

(** ** The answer count *)

Lemma well_indexed_empty : well_indexed empty_store.
Proof. intros iid i Hi. simpl in Hi. by rewrite lookup_empty in Hi. Qed.

Lemma well_indexed_handle cfg r st :
  well_indexed st -> record_in_range st r = true ->
  well_indexed (handle cfg r st).
Proof.
  intros Hw Hr iid i' Hi'.
  destruct (interviews st !! iid) as [i|] eqn:Hi.
  - rewrite (handle_row cfg r st iid i Hi) in Hi'. injection Hi' as <-.
    destruct (Hw iid i Hi) as (job & Hjob & Hnd & Hall).
    exists job. rewrite row_after_job_id.
    split; [by apply handle_get_job|].
    split; [by apply row_after_NoDup|].
    destruct (row_after_q_idx cfg r st iid i)
      as [Hp|[(q & pl & ok & tr & -> & Hq & -> & _)|(fk & job' & _ & Hj' & ->)]].
    + by rewrite Hp.
    + apply Forall_app. split; [done|]. apply Forall_singleton.
      simpl in Hr. by rewrite Hi, Hjob in Hr.
    + rewrite Hjob in Hj'. injection Hj' as <-.
      apply Forall_forall. intros x Hx%elem_of_seqZ.
      unfold index_in_range. apply andb_true_iff. split; lia.
  - destruct (handle_new_row cfg r st iid i' Hi Hi') as (-> & _ & [job Hjob]).
    exists job. split_and!; [done|constructor|constructor].
Qed.

Lemma well_indexed_run cfg rs st :
  well_indexed st -> records_in_range cfg rs st = true ->
  well_indexed (run cfg rs st).
Proof.
  revert st. induction rs as [|r rs IH]; intros st Hw Hr; [done|].
  simpl in Hr. apply andb_true_iff in Hr as [Hr1 Hr2].
  rewrite run_cons. apply IH; [by apply well_indexed_handle|done].
Qed.

(** C4 (as amended): when every recording callback names a question of the
    interview's job (0 <= q_idx < len(job.questions)), then after any
    sequence of requests every interview has at most as many answers as its
    job has questions. *)
Theorem answers_bounded cfg rs st iid i job :
  well_indexed st ->
  records_in_range cfg rs st = true ->
  interviews (run cfg rs st) !! iid = Some i ->
  get_job (run cfg rs st) (Interview.job_id i) = Some job ->
  length (Interview.answers i) <= length (Job.questions job).
Proof.
  intros Hw Hr Hi Hjob.
  destruct (well_indexed_run cfg rs st Hw Hr iid i Hi) as (job' & Hj' & Hnd & Hall).
  rewrite Hjob in Hj'. injection Hj' as <-.
  rewrite <- (length_map q_idx). apply distinct_indices_bound; [done|].
  eapply Forall_impl; [exact Hall|]. intros x Hx. unfold index_in_range in Hx.
  apply andb_true_iff in Hx as [? ?]. lia.
Qed.

(** ** Scoring on read *)

Lemma existsb_perm {A} (f : A -> bool) (l l' : list A) :
  l ≡ₚ l' -> existsb f l = existsb f l'.
Proof.
  induction 1 as [|x l l' _ IH|x y l|l l1 l2 _ IH1 _ IH2]; simpl.
  - done.
  - by rewrite IH.
  - by destruct (f x), (f y).
  - by rewrite IH1.
Qed.

Lemma existsb_apply_score m l :
  existsb (fun a => bool_decide (is_Some (m !! q_idx a))) l = true ->
  existsb has_score (map (apply_score m) l) = true.
Proof.
  induction l as [|a l IH]; simpl; [done|].
  intros [Ha|Hl]%orb_true_iff; apply orb_true_iff.
  - left. apply bool_decide_eq_true_1 in Ha as [b Hb].
    unfold apply_score. by rewrite Hb.
  - right. by apply IH.
Qed.

(** A settled row needs no scoring, whatever the job. *)
Lemma settled_needs_scoring qs i : settled i = true -> needs_scoring qs i = false.
Proof.
  unfold settled, needs_scoring. intros [Hr Hs]%andb_true_iff.
  rewrite (existsb_perm _ _ _ (sorted_by_q_idx_perm _)), Hr, Hs. simpl.
  apply andb_false_r.
Qed.

(** A row stays settled, with its recommendation, under every request other
    than the development endpoint. *)
Lemma row_after_settled cfg r st iid i :
  settled i = true -> not_simulate iid r = true ->
  settled (row_after cfg r st iid i) = true
  /\ Interview.final_recommendation (row_after cfg r st iid i)
     = Interview.final_recommendation i.
Proof.
  intros Hs Hr. destruct r; simpl in *; try done.
  - apply negb_true_iff in Hr. by rewrite Hr.
  - destruct n as [n|], status as [status|]; try done.
    case_match; [|done]. unfold event_row. by case_match.
  - case_bool_decide; [|done]. unfold record_row.
    case_match; [|done]. case_match; [|done].
    split; [|done]. unfold settled in *. simpl.
    apply andb_true_iff in Hs as [-> Hs]. simpl.
    by destruct (Interview.answers i).
  - case_bool_decide; [|done]. unfold read_row.
    case_match; [|done]. case_match; [|done].
    by rewrite settled_needs_scoring.
Qed.

(** C5 (as amended): once an interview has a non-empty final_recommendation
    and an answer that carries a score, no sequence of call-status events,
    recording callbacks, result reads (and job, candidate and trigger
    requests) changes or clears the final_recommendation. *)
Theorem final_recommendation_frozen cfg rs st iid i :
  interviews st !! iid = Some i ->
  settled i = true ->
  forallb (not_simulate iid) rs = true ->
  final_recommendation_of (run cfg rs st) iid = Interview.final_recommendation i
  /\ truthy_opt (final_recommendation_of (run cfg rs st) iid) = true.
Proof.
  revert st i. induction rs as [|r rs IH]; intros st i Hi Hs Hrs.
  - unfold run, final_recommendation_of. simpl. rewrite Hi. simpl.
    split; [done|]. unfold settled in Hs. by apply andb_true_iff in Hs as [? _].
  - simpl in Hrs. apply andb_true_iff in Hrs as [Hr Hrs].
    destruct (row_after_settled cfg r st iid i Hs Hr) as [Hs' Hf'].
    rewrite run_cons, <- Hf'.
    apply IH; [by apply handle_row|done|done].
Qed.

(** A read that does not reach the scoring block calls no scorer and leaves
    the store as it is. *)
Lemma get_interview_quiet cfg iid reply st :
  quiet st iid = true ->
  r_scorer_call (get_interview cfg iid reply st) = None
  /\ r_store (get_interview cfg iid reply st) = st.
Proof.
  unfold quiet, get_interview.
  destruct (interviews st !! iid) as [i|]; [|done].
  destruct (get_job st _) as [job|]; [|done].
  intros ->%negb_true_iff. by destruct (candidates st !! _).
Qed.

Lemma reads_quiet cfg iid replies st :
  quiet st iid = true ->
  scorer_calls cfg (reads iid replies) st = 0
  /\ run cfg (reads iid replies) st = st.
Proof.
  intros Hq. induction replies as [|reply replies [IH1 IH2]]; [done|].
  destruct (get_interview_quiet cfg iid reply st Hq) as [Hc Hs].
  unfold reads in *. cbn [map scorer_calls]. rewrite run_cons.
  cbn [handle scorer_called]. rewrite Hc, Hs.
  rewrite bool_decide_eq_false_2 by (by intros [? ?]). done.
Qed.

(** After a read whose scorer answer settles the row, reads are quiet. *)
Lemma get_interview_settles cfg iid reply st i :
  interviews st !! iid = Some i ->
  reply_settles i reply = true ->
  quiet (r_store (get_interview cfg iid reply st)) iid = true.
Proof.
  intros Hi Hgood. rewrite get_interview_store, Hi.
  assert (Hq : forall job, get_job st (Interview.job_id i) = Some job ->
                 needs_scoring (Job.questions job) i = false -> quiet st iid = true).
  { intros job Hj Hn. unfold quiet. by rewrite Hi, Hj, Hn. }
  unfold reply_settles in Hgood.
  destruct (get_job st (Interview.job_id i)) as [job|] eqn:Hj.
  2:{ unfold quiet. by rewrite Hi, Hj. }
  destruct (openai_score reply) as [sc|] eqn:Hsc; [|done].
  destruct (needs_scoring (Job.questions job) i) eqn:Hn; [|by eapply Hq].
  apply andb_true_iff in Hgood as [Hrec Hex].
  unfold quiet. cbn [interviews set_interviews]. rewrite lookup_insert_eq.
  assert (Hset : settled (read_row st reply i) = true).
  { unfold read_row. rewrite Hj, Hsc, Hn. unfold settled.
    case_match; simpl; rewrite Hrec; simpl; apply existsb_apply_score;
      by rewrite (existsb_perm _ _ _ (sorted_by_q_idx_perm _)). }
  case_match; [|done]. by rewrite settled_needs_scoring.
Qed.

(** C2 (as amended): when the scorer's answer on the first result read has a
    non-empty recommendation and a per-answer entry for the index of a stored
    answer, then N result reads call the scorer at most once in total, and
    every later read leaves the final_recommendation that the first read
    left. *)
Theorem scorer_called_at_most_once cfg st iid i reply replies :
  interviews st !! iid = Some i ->
  reply_settles i reply = true ->
  scorer_calls cfg (reads iid (reply :: replies)) st <= 1
  /\ final_recommendation_of (run cfg (reads iid (reply :: replies)) st) iid
     = final_recommendation_of (run cfg (reads iid [reply]) st) iid.
Proof.
  intros Hi Hgood.
  pose proof (get_interview_settles cfg iid reply st i Hi Hgood) as Hq.
  destruct (reads_quiet cfg iid replies _ Hq) as [Hcalls Hrun].
  unfold reads in *. cbn [map scorer_calls]. rewrite !run_cons.
  cbn [handle scorer_called]. rewrite Hcalls, Hrun.
  split; [|done]. case_match; simpl; lia.
Qed.

(** ** Recording callbacks *)

Lemma with_answers_same (i : Interview.t) :
  Interview.with_answers (Interview.answers i) i = i.
Proof. by destruct i. Qed.

(** What an accepted callback stores: the delivered answer, alone, when the
    interview had no answer; nothing when it had one. *)
Lemma voice_record_accepted iid q payload tr st i qt :
  interviews st !! iid = Some i ->
  question_text (get_job st (Interview.job_id i)) q = Some qt ->
  truthy_opt (payload_rec_url payload) = true ->
  voice_record iid q payload true tr st
  = (match Interview.answers i with
     | [] =>
       set_interviews
         (<[iid := Interview.with_answers
                     [mkAnswer q qt (default "" (payload_rec_url payload))
                        ("/v1/artifacts/" +:+ audio_rel iid q) (transcript_of tr)
                        None None] i]> (interviews st)) st
     | _ :: _ => st
     end, PlainTextResponse 200 "OK").
Proof.
  intros Hi Hq Hurl. unfold voice_record. rewrite Hurl, Hi, Hq. simpl.
  f_equal. destruct (Interview.answers i) as [|a l] eqn:Ha; [done|].
  simpl. rewrite <- Ha, with_answers_same, insert_id by done.
  apply set_interviews_same.
Qed.

(** C3 (the code at the failing input): interview [i2] of [store_answered]
    holds the answer of the first delivery for question 0.  A second
    delivery for question 0, with another recording and another transcript,
    is answered OK; the loop of the handler does replace the answer in its
    place, in the list it loaded, but the store is left as it was: the first
    delivery's data stay. *)
Theorem voice_record_redelivery_dropped :
  let again := mkPayload (Some "https://rec/0-again") None None in
  answers_of store_answered "i2"
  = [mkAnswer 0 "Q1" "https://rec/0" "/v1/artifacts/i2/q_0.mp3" "a0" None None]
  /\ upsert_answer 0 "Q1" "https://rec/0-again" "/v1/artifacts/i2/q_0.mp3"
       "a0 again" (answers_of store_answered "i2")
     = [mkAnswer 0 "Q1" "https://rec/0-again" "/v1/artifacts/i2/q_0.mp3"
          "a0 again" None None]
  /\ voice_record "i2" 0 again true (inl "a0 again") store_answered
     = (store_answered, PlainTextResponse 200 "OK").
Proof.
  split_and!; [reflexivity..|].
  rewrite (voice_record_accepted "i2" 0 _ _ store_answered
             (row_of store_answered "i2") "Q1"); reflexivity.
Qed.

(** C8 (the code at the failing input): interview [i2] of [store_called]
    (three questions) gets the recording of question 0, and then the
    recording of question 1, on which the transcriber fails.  The second
    callback is answered OK and its answer, sentinel transcript and all, is
    not stored: the interview still has the one answer for question 0.  Had
    the interview had no answer, the sentinel answer would have been
    stored. *)
Theorem transcription_failure_dropped :
  let st := run cfg_prod [recording2 0 "https://rec/0" (inl "a0")] store_called in
  let payload := mkPayload (Some "https://rec/1") None None in
  answers_of st "i2"
  = [mkAnswer 0 "Q1" "https://rec/0" "/v1/artifacts/i2/q_0.mp3" "a0" None None]
  /\ voice_record "i2" 1 payload true (inr "timed out") st
     = (st, PlainTextResponse 200 "OK")
  /\ answers_of
       (fst (voice_record "i2" 1 payload true (inr "timed out") store_called))
       "i2"
     = [mkAnswer 1 "Q2" "https://rec/1" "/v1/artifacts/i2/q_1.mp3"
          "(transcription_failed: timed out)" None None].
Proof.
  intros st payload. split_and!; [reflexivity| |reflexivity].
  rewrite (voice_record_accepted "i2" 1 _ _ st (row_of st "i2") "Q2");
    reflexivity.
Qed.


(** ** Artifact download *)

(** What the guard of [serve_artifact] does establish: the normalised path
    of a served file starts, as a string, with the root. *)
Lemma serve_artifact_prefix cfg exists_ path ap :
  serve_artifact cfg exists_ path = FileResponse ap ->
  ap = path_join (ARTIFACTS_DIR cfg) path
  /\ String.prefix (ARTIFACTS_DIR cfg) (abspath (cwd cfg) ap) = true.
Proof.
  unfold serve_artifact.
  destruct (String.prefix _ _) eqn:Hp; simpl; [|done].
  destruct (exists_ _); simpl; [|done].
  by intros [= <-].
Qed.

(** C10 (the code at the failing input): with the root [/srv/artifacts], the
    request path [../artifacts_old/x.mp3] resolves to
    [/srv/artifacts_old/x.mp3], which is outside the root, and is served all
    the same: the guard compares strings, and the root is a prefix of the
    sibling directory's name.  A path that leaves the root for another name
    is refused. *)
Theorem serve_artifact_sibling_directory :
  ARTIFACTS_DIR cfg_prod = "/srv/artifacts"
  /\ abspath (cwd cfg_prod)
       (path_join (ARTIFACTS_DIR cfg_prod) "../artifacts_old/x.mp3")
     = "/srv/artifacts_old/x.mp3"
  /\ path_inside (ARTIFACTS_DIR cfg_prod) "/srv/artifacts_old/x.mp3" = false
  /\ serve_artifact cfg_prod (fun _ => true) "../artifacts_old/x.mp3"
     = FileResponse "/srv/artifacts/../artifacts_old/x.mp3"
  /\ serve_artifact cfg_prod (fun _ => true) "../secret/x.mp3"
     = HTTPException 403 "Invalid path".
Proof. split_and!; reflexivity. Qed.

(** ** Dispatch failure *)

(** C7 (as amended): in production mode, when a trigger request reaches the
    call provider and the provider answers with a failure (status code 300
    or more), the interview row just created has status [failed] and no
    provider_call_id, and the caller gets the provider's status code with
    the detail "Vonage call create failed: ...". *)
Theorem dispatch_failure_marks_failed cfg data env st job cand r :
  is_development_mode cfg = false ->
  vonage_configured cfg = true ->
  snd (resolve_trigger cfg data env st) = inl (job, cand) ->
  interviews st !! inter_uuid env = None ->
  vonage_response env = PostReturns r ->
  (300 <= status_code r)%Z ->
  snd (trigger_interview cfg data env st)
  = HTTPException (status_code r) ("Vonage call create failed: " +:+ text r)
  /\ interviews (fst (trigger_interview cfg data env st)) !! inter_uuid env
     = Some (Interview.mk (inter_uuid env) (Job.id job) (Candidate.id cand)
               "failed" None [] None).
Proof.
  intros Hdev Hcfg Hres Hfresh Hpost Hcode. unfold trigger_interview.
  pose proof (resolve_trigger_frame cfg data env st) as [_ Hint].
  destruct (resolve_trigger cfg data env st) as [st1 [[job' cand']|resp]];
    simpl in *; [|done].
  injection Hres as -> ->. rewrite Hint, Hfresh.
  unfold place_call. rewrite Hdev, Hcfg, Hpost. simpl.
  rewrite (proj2 (Z.leb_le _ _) Hcode). simpl.
  split; [done|].
  rewrite update_interview_lookup, bool_decide_eq_true_2 by done.
  simpl. by rewrite lookup_insert_eq.
Qed.

(** ** Order of delivery *)

(** A read that reaches the scoring block calls the scorer with the job's
    questions and the transcripts in index order. *)
Lemma get_interview_scorer_call cfg iid reply st i job :
  interviews st !! iid = Some i ->
  get_job st (Interview.job_id i) = Some job ->
  needs_scoring (Job.questions job) i = true ->
  r_scorer_call (get_interview cfg iid reply st)
  = Some (Job.questions job,
          map transcript (sorted_by_q_idx (Interview.answers i))).
Proof.
  intros Hi Hjob Hn. unfold get_interview. rewrite Hi, Hjob, Hn.
  destruct (openai_score reply), (candidates st !! _); done.
Qed.

(** C6 (the code at the failing input): interview [i2] of [store_called] is
    for a job with the questions Q1, Q2, Q3 and has no answers.  After the
    recordings for the indices 1, 0, 2 (transcripts a1, a0, a2) it holds one
    answer, the one for index 1; after the recordings for 0, 1, 2 it holds
    the one for index 0.  The two results differ, neither has the three
    answers, and the read that follows does not call the scorer: the
    interview stays in progress, without a recommendation. *)
Theorem out_of_order_delivery_dropped :
  let sA :=
    run cfg_prod
      [recording2 1 "https://rec/1" (inl "a1");
       recording2 0 "https://rec/0" (inl "a0");
       recording2 2 "https://rec/2" (inl "a2")] store_called in
  let sB :=
    run cfg_prod
      [recording2 0 "https://rec/0" (inl "a0");
       recording2 1 "https://rec/1" (inl "a1");
       recording2 2 "https://rec/2" (inl "a2")] store_called in
  Job.questions <$> get_job store_called "j1" = Some ["Q1"; "Q2"; "Q3"]
  /\ answers_of store_called "i2" = []
  /\ sorted_by_q_idx (answers_of sA "i2")
     = [mkAnswer 1 "Q2" "https://rec/1" "/v1/artifacts/i2/q_1.mp3" "a1" None None]
  /\ sorted_by_q_idx (answers_of sB "i2")
     = [mkAnswer 0 "Q1" "https://rec/0" "/v1/artifacts/i2/q_0.mp3" "a0" None None]
  /\ r_scorer_call (get_interview cfg_prod "i2" reply_yes sA) = None
  /\ r_store (get_interview cfg_prod "i2" reply_yes sA) = sA
  /\ status_of sA "i2" = Some "in_progress"
  /\ final_recommendation_of sA "i2" = None.
Proof.
  intros sA sB. split_and!; try reflexivity.
  all: apply (get_interview_quiet cfg_prod "i2" reply_yes sA); reflexivity.
Qed.

(** * Instances and counterexamples *)

(** Instance of C1: a completed interview under a timeout report, the
    development endpoint and a read; a failed interview under a failure
    report, a recording and a read. *)
Lemma terminal_status_stable_witness :
  status_of
    (run cfg_dev
       [ReqEvent (Some "i1") (Some "timeout"); ReqSimulate "i1" ["x"; "y"; "z"];
        ReqRead "i1" reply_yes]
       (store3 "completed")) "i1" = Some "completed"
  /\ status_of
       (run cfg_prod
          [ReqEvent (Some "i1") (Some "failed");
           recording 0 "https://rec/0" "a0"; ReqRead "i1" reply_yes]
          (store3 "failed")) "i1" = Some "failed".
Proof.
  split.
  - apply terminal_status_stable; [reflexivity | left; reflexivity].
  - apply terminal_status_stable; [reflexivity | right; split; reflexivity].
Defined.

(** C1 as stated fails: a failed interview becomes [timeout] on a timeout
    report, and [completed] on the development endpoint. *)
Lemma failed_status_overwritten :
  status_of (store3 "failed") "i1" = Some "failed"
  /\ status_of (fst (voice_event (Some "i1") (Some "timeout") (store3 "failed"))) "i1"
     = Some "timeout"
  /\ status_of
       (fst (simulate_answers cfg_dev "i1" ["x"; "y"; "z"] (store3 "failed"))) "i1"
     = Some "completed".
Proof. split_and!; reflexivity. Qed.

(** Instance of C2: three reads of the answered interview of
    [store_answered], the first scorer answer carrying a score for
    question 0. *)
Lemma scorer_called_at_most_once_witness :
  scorer_calls cfg_prod (reads "i2" [reply_yes; ReplyNotJson; ReplyRaises])
    store_answered <= 1
  /\ final_recommendation_of
       (run cfg_prod (reads "i2" [reply_yes; ReplyNotJson; ReplyRaises])
          store_answered) "i2"
     = final_recommendation_of
         (run cfg_prod (reads "i2" [reply_yes]) store_answered) "i2".
Proof.
  apply (scorer_called_at_most_once cfg_prod store_answered "i2"
           (row_of store_answered "i2") reply_yes [ReplyNotJson; ReplyRaises]);
    vm_compute; reflexivity.
Defined.

(** C2 as stated fails: interview [i2] of [store_answered] has an answer for
    the one question of its job, the scorer's reply is not JSON (so
    [openai_score] returns its fallback without per-answer scores), and each
    of three reads calls the scorer. *)
Lemma scorer_called_on_every_read :
  Job.questions <$> get_job store_answered "j1" = Some ["Q1"]
  /\ have_all ["Q1"] (sorted_by_q_idx (answers_of store_answered "i2")) = true
  /\ scorer_calls cfg_prod
       (reads "i2" [ReplyNotJson; ReplyNotJson; ReplyNotJson]) store_answered = 3
  /\ ~ (scorer_calls cfg_prod
          (reads "i2" [ReplyNotJson; ReplyNotJson; ReplyNotJson]) store_answered
        <= 1).
Proof.
  assert (H : scorer_calls cfg_prod
       (reads "i2" [ReplyNotJson; ReplyNotJson; ReplyNotJson]) store_answered = 3)
    by (vm_compute; reflexivity).
  split_and!; [reflexivity | vm_compute; reflexivity | exact H | rewrite H; lia].
Qed.

(** Instance of C4: a job, a trigger and the recording for question 0,
    starting from an empty database. *)
Lemma answers_bounded_witness :
  length (Interview.answers (row_of (run cfg_prod first_requests empty_store) "i2"))
  <= length (Job.questions job3).
Proof.
  apply (answers_bounded cfg_prod first_requests empty_store "i2"
           (row_of (run cfg_prod first_requests empty_store) "i2") job3).
  - exact well_indexed_empty.
  - vm_compute; reflexivity.
  - vm_compute; reflexivity.
  - vm_compute; reflexivity.
Defined.

(** C4 as stated fails: the job of interview [i2] of [store_no_question] has
    no question, a recording arrives for index 0 (it is stored under the
    made-up question text "Q1"), and the interview has one answer. *)
Lemma answers_exceed_questions :
  let st := run cfg_prod [recording2 0 "https://rec/0" (inl "a0")] store_no_question in
  Job.questions <$> get_job st (Interview.job_id (row_of st "i2")) = Some []
  /\ answers_of st "i2"
     = [mkAnswer 0 "Q1" "https://rec/0" "/v1/artifacts/i2/q_0.mp3" "a0" None None]
  /\ ~ (length (answers_of st "i2") <= length (@nil string)).
Proof.
  intros st.
  assert (H : answers_of st "i2"
     = [mkAnswer 0 "Q1" "https://rec/0" "/v1/artifacts/i2/q_0.mp3" "a0" None None])
    by reflexivity.
  split_and!; [reflexivity | exact H | rewrite H; simpl; lia].
Qed.

(** Instance of C5: the scored interview of [store_scored] under a failure
    report, a second recording for question 0, and two reads with other
    scorer answers. *)
Lemma final_recommendation_frozen_witness :
  final_recommendation_of
    (run cfg_prod
       [ReqEvent (Some "i2") (Some "failed");
        recording2 0 "https://rec/0-again" (inl "a0 again");
        ReqRead "i2" ReplyNotJson; ReqRead "i2" ReplyRaises]
       store_scored) "i2"
  = Interview.final_recommendation (row_of store_scored "i2")
  /\ truthy_opt
       (final_recommendation_of
          (run cfg_prod
             [ReqEvent (Some "i2") (Some "failed");
              recording2 0 "https://rec/0-again" (inl "a0 again");
              ReqRead "i2" ReplyNotJson; ReqRead "i2" ReplyRaises]
             store_scored) "i2") = true.
Proof.
  apply (final_recommendation_frozen cfg_prod _ store_scored "i2"
           (row_of store_scored "i2")); vm_compute; reflexivity.
Defined.

(** C5 as stated fails.  On [store_answered]: the first read stores the
    fallback recommendation "Neutral" (no answer gets a score), the second
    read scores again and stores "Yes", and a third scorer answer without
    recommendation clears it.  On [store_simulated_scored], where interview
    [i2] has the recommendation "Yes" and a scored answer: the development
    endpoint replaces the answers, scores included, and the read that
    follows stores "No". *)
Lemma final_recommendation_rewritten :
  final_recommendation_of
    (run cfg_prod [ReqRead "i2" ReplyNotJson] store_answered) "i2"
  = Some "Neutral"
  /\ final_recommendation_of
       (run cfg_prod
          [ReqRead "i2" ReplyNotJson;
           ReqRead "i2" (ReplyJson (mkScoring [] (Some "Yes")))]
          store_answered) "i2"
     = Some "Yes"
  /\ final_recommendation_of
       (run cfg_prod
          [ReqRead "i2" ReplyNotJson;
           ReqRead "i2" (ReplyJson (mkScoring [] (Some "Yes")));
           ReqRead "i2" (ReplyJson (mkScoring [] None))]
          store_answered) "i2"
     = None
  /\ settled (row_of store_simulated_scored "i2") = true
  /\ final_recommendation_of store_simulated_scored "i2" = Some "Yes"
  /\ final_recommendation_of
       (run cfg_dev
          [ReqSimulate "i2" fake3;
           ReqRead "i2" (ReplyJson (mkScoring [] (Some "No")))]
          store_simulated_scored) "i2"
     = Some "No".
Proof. split_and!; vm_compute; reflexivity. Qed.

(** Instance of C7: the provider answers 401 to the call request. *)
Lemma dispatch_failure_marks_failed_witness :
  snd (trigger_interview cfg_prod trigger_bob env_refused store_job)
  = HTTPException 401 "Vonage call create failed: Unauthorized"
  /\ interviews (fst (trigger_interview cfg_prod trigger_bob env_refused store_job))
       !! "i2"
     = Some (Interview.mk "i2" "j1" "c2" "failed" None [] None).
Proof.
  apply (dispatch_failure_marks_failed cfg_prod trigger_bob env_refused
           store_job job3 (Candidate.mk "c2" "Bob" "+15550101" None)
           (mkHttpResponse 401 "Unauthorized" None));
    try reflexivity.
  simpl. lia.
Defined.

(** C7 as stated fails: when the request to the provider raises (here a
    timeout), when the provider's application id or key is not configured,
    and when the provider's answer cannot be read as JSON, the trigger ends
    in an error and the interview row stays [calling]. *)
Lemma dispatch_failure_left_calling :
  snd (trigger_interview cfg_prod trigger_bob env_timeout store_job)
  = Uncaught "ConnectTimeout"
  /\ interviews (fst (trigger_interview cfg_prod trigger_bob env_timeout store_job))
       !! "i2"
     = Some (Interview.mk "i2" "j1" "c2" "calling" None [] None)
  /\ snd (trigger_interview cfg_unconfigured trigger_bob env_accepted store_job)
     = HTTPException 500 "Vonage app/private key not configured"
  /\ interviews
       (fst (trigger_interview cfg_unconfigured trigger_bob env_accepted store_job))
       !! "i2"
     = Some (Interview.mk "i2" "j1" "c2" "calling" None [] None)
  /\ snd (trigger_interview cfg_prod trigger_bob env_garbled store_job)
     = Uncaught "JSONDecodeError"
  /\ interviews (fst (trigger_interview cfg_prod trigger_bob env_garbled store_job))
       !! "i2"
     = Some (Interview.mk "i2" "j1" "c2" "calling" None [] None).
Proof. split_and!; reflexivity. Qed.

(** * Further properties of the handlers *)

(** ** What no request does *)

Lemma get_job_run cfg rs st k j :
  get_job st k = Some j -> get_job (run cfg rs st) k = Some j.
Proof.
  revert st. induction rs as [|r rs IH]; intros st Hj; [done|].
  rewrite run_cons. by apply IH, handle_get_job.
Qed.

(** X1: a job row is never changed or removed: after any sequence of
    requests, looking up the id of a stored job gives the same job, with the
    same questions. *)
Theorem jobs_never_change cfg rs st k j :
  get_job st k = Some j ->
  get_job (run cfg rs st) k = Some j
  /\ Job.questions <$> get_job (run cfg rs st) k = Some (Job.questions j).
Proof. intros Hj. rewrite (get_job_run cfg rs st k j Hj). done. Qed.

Lemma row_after_identity cfg r st iid i :
  Interview.id (row_after cfg r st iid i) = Interview.id i
  /\ Interview.candidate_id (row_after cfg r st iid i) = Interview.candidate_id i.
Proof.
  destruct r; simpl; try done.
  - unfold simulate_row. repeat (case_match; try done).
  - unfold event_row. repeat (case_match; try done).
  - unfold record_row. repeat (case_match; try done).
  - unfold read_row. repeat (case_match; try done).
Qed.

(** X2: an interview row is never deleted, and its id, job and candidate
    never change, whatever requests follow. *)
Theorem interviews_never_deleted cfg rs st iid i :
  interviews st !! iid = Some i ->
  exists i',
    interviews (run cfg rs st) !! iid = Some i'
    /\ Interview.id i' = Interview.id i
    /\ Interview.job_id i' = Interview.job_id i
    /\ Interview.candidate_id i' = Interview.candidate_id i.
Proof.
  revert st i. induction rs as [|r rs IH]; intros st i Hi; [by exists i|].
  rewrite run_cons.
  destruct (IH _ _ (handle_row cfg r st iid i Hi)) as (i' & Hi' & Hid & Hj & Hc).
  exists i'. split; [done|].
  destruct (row_after_identity cfg r st iid i) as [Hid' Hc'].
  by rewrite Hid, Hj, Hc, Hid', Hc', row_after_job_id.
Qed.

(** Candidate rows are never removed. *)
Lemma handle_candidate cfg r st k :
  is_Some (candidates st !! k) -> is_Some (candidates (handle cfg r st) !! k).
Proof.
  intros Hk.
  assert (Hsame : candidates (handle cfg r st) = candidates st ->
                  is_Some (candidates (handle cfg r st) !! k)) by (by intros ->).
  assert (Hins : forall k' v, is_Some (<[k' := v]> (candidates st) !! k)).
  { intros k' v. apply lookup_insert_is_Some'. by right. }
  assert (Hres : forall data env,
            is_Some (candidates (fst (resolve_trigger cfg data env st)) !! k)).
  { intros data env. unfold resolve_trigger, add_candidate_row.
    repeat (case_match; simplify_eq; simpl; try done). }
  destruct r; unfold handle.
  - apply Hsame. unfold handle, jd_to_questions.
    repeat (case_match; simpl; try done).
  - unfold add_candidate, add_candidate_row.
    repeat (case_match; simplify_eq; simpl; try done).
  - unfold attach_resume_meta. case_match; simpl; done.
  - unfold trigger_interview. specialize (Hres data env).
    destruct (resolve_trigger cfg data env st) as [st1 [[job cand]|resp]];
      simpl in *; [|done].
    destruct (interviews st1 !! inter_uuid env); simpl; [done|].
    unfold place_call, update_interview.
    repeat (case_match; simpl; try done).
  - apply Hsame. unfold handle, simulate_answers.
    repeat (case_match; simpl; try done).
  - apply Hsame. unfold handle, voice_event.
    repeat (case_match; simpl; try done).
  - apply Hsame. unfold handle, voice_record.
    repeat (case_match; simpl; try done).
  - apply Hsame. unfold handle. rewrite get_interview_store.
    repeat (case_match; simpl; try done).
Qed.

(** ** Rows a trigger creates *)

Lemma place_call_candidates cfg env job cand st :
  candidates (fst (place_call cfg env job cand st)) = candidates st.
Proof.
  unfold place_call, update_interview.
  repeat (case_match; simpl; try done).
Qed.

(** [place_call] leaves the fresh row in one of three statuses. *)
Lemma place_call_new_row cfg env job cand st jid cid :
  interviews st !! inter_uuid env
  = Some (Interview.mk (inter_uuid env) jid cid "calling" None [] None) ->
  exists s c,
    interviews (fst (place_call cfg env job cand st)) !! inter_uuid env
    = Some (Interview.mk (inter_uuid env) jid cid s c [] None)
    /\ (s = "calling" \/ s = "in_progress" \/ s = "failed").
Proof.
  intros Hi. unfold place_call.
  repeat (case_match; simpl; try done);
    rewrite ?update_interview_lookup, ?bool_decide_eq_true_2, ?Hi by done;
    simpl; eexists _, _; (split; [reflexivity|]); auto.
Qed.

(** The interview row that a trigger adds. *)
Lemma trigger_interview_new_row cfg data env st iid i :
  interviews st !! iid = None ->
  interviews (fst (trigger_interview cfg data env st)) !! iid = Some i ->
  exists job cand s c,
    snd (resolve_trigger cfg data env st) = inl (job, cand)
    /\ iid = inter_uuid env
    /\ i = Interview.mk iid (Job.id job) (Candidate.id cand) s c [] None
    /\ (s = "calling" \/ s = "in_progress" \/ s = "failed")
    /\ candidates (fst (trigger_interview cfg data env st))
       = candidates (fst (resolve_trigger cfg data env st)).
Proof.
  intros Hn Hi. unfold trigger_interview in *.
  pose proof (resolve_trigger_frame cfg data env st) as [_ Hint].
  destruct (resolve_trigger cfg data env st) as [st1 [[job cand]|resp]];
    simpl in *; [|congruence].
  destruct (interviews st1 !! inter_uuid env) eqn:E; simpl in *; [congruence|].
  destruct (decide (iid = inter_uuid env)) as [->|Hne].
  - set (st2 := set_interviews _ st1) in *.
    destruct (place_call_new_row cfg env job cand st2 (Job.id job)
                (Candidate.id cand)) as (s & c & Hrow & Hs).
    { subst st2. simpl. by rewrite lookup_insert_eq. }
    rewrite Hrow in Hi. injection Hi as <-.
    exists job, cand, s, c. split_and!; try done.
    by rewrite place_call_candidates.
  - rewrite place_call_lookup in Hi by done. simpl in Hi.
    rewrite lookup_insert_ne in Hi by done. congruence.
Qed.

Lemma resolve_trigger_candidate cfg data env st job cand :
  (forall k c, candidates st !! k = Some c -> Candidate.id c = k) ->
  snd (resolve_trigger cfg data env st) = inl (job, cand) ->
  candidates (fst (resolve_trigger cfg data env st)) !! Candidate.id cand
  = Some cand.
Proof.
  intros Hkey. unfold resolve_trigger, add_candidate_row.
  repeat (case_match; simplify_eq; simpl; try done); intros [= <- <-]; simpl;
    first [ by rewrite lookup_insert_eq
          | match goal with H : candidates st !! _ = Some _ |- _ =>
              by rewrite (Hkey _ _ H) end ].
Qed.

Lemma insert_keyed (m : gmap string Candidate.t) k0 c0 :
  Candidate.id c0 = k0 ->
  (forall k c, m !! k = Some c -> Candidate.id c = k) ->
  forall k c, <[k0 := c0]> m !! k = Some c -> Candidate.id c = k.
Proof.
  intros Hid Hkey k c. rewrite lookup_insert. case_decide; [|apply Hkey].
  intros [= <-]. congruence.
Qed.

Lemma handle_candidates_keyed cfg r st :
  (forall k c, candidates st !! k = Some c -> Candidate.id c = k) ->
  forall k c, candidates (handle cfg r st) !! k = Some c -> Candidate.id c = k.
Proof.
  intros Hkey k c.
  assert (Hsame : candidates (handle cfg r st) = candidates st ->
            candidates (handle cfg r st) !! k = Some c -> Candidate.id c = k).
  { intros ->. apply Hkey. }
  assert (Hres : forall data env,
            candidates (fst (resolve_trigger cfg data env st)) !! k = Some c ->
            Candidate.id c = k).
  { intros data env. unfold resolve_trigger, add_candidate_row.
    repeat (case_match; simplify_eq; simpl; try apply Hkey);
      by apply insert_keyed. }
  destruct r; unfold handle.
  - apply Hsame. unfold handle, jd_to_questions.
    repeat (case_match; simpl; try done).
  - unfold add_candidate, add_candidate_row.
    repeat (case_match; simplify_eq; simpl; try apply Hkey);
      by apply insert_keyed.
  - unfold attach_resume_meta. case_match eqn:Hc; simpl; [|apply Hkey].
    apply insert_keyed; [|done]. simpl. by apply Hkey.
  - unfold trigger_interview. specialize (Hres data env).
    destruct (resolve_trigger cfg data env st) as [st1 [[job cand]|resp]];
      simpl in *; [|done].
    destruct (interviews st1 !! inter_uuid env); simpl; [done|].
    by rewrite place_call_candidates.
  - apply Hsame. unfold handle, simulate_answers.
    repeat (case_match; simpl; try done).
  - apply Hsame. unfold handle, voice_event.
    repeat (case_match; simpl; try done).
  - apply Hsame. unfold handle, voice_record.
    repeat (case_match; simpl; try done).
  - apply Hsame. unfold handle. rewrite get_interview_store.
    repeat (case_match; simpl; try done).
Qed.

Lemma references_ok_handle cfg r st :
  references_ok st -> references_ok (handle cfg r st).
Proof.
  intros [Hkey Hint]. split; [by apply handle_candidates_keyed|].
  intros iid i' Hi'.
  destruct (interviews st !! iid) as [i|] eqn:Hi.
  - rewrite (handle_row cfg r st iid i Hi) in Hi'. injection Hi' as <-.
    destruct (Hint iid i Hi) as (Hid & [job Hjob] & Hcand).
    destruct (row_after_identity cfg r st iid i) as [-> ->].
    rewrite row_after_job_id. split_and!; [done| |by apply handle_candidate].
    exists job. by apply handle_get_job.
  - destruct (handle_new_row cfg r st iid i' Hi Hi') as (_ & _ & Hjob).
    destruct r; try (rewrite handle_None in Hi'; [done| by intros | done]).
    unfold handle in *.
    destruct (trigger_interview_new_row cfg data env st iid i' Hi Hi')
      as (job & cand & s & c & Hres & -> & -> & _ & Hcands).
    simpl in *. split_and!; [done|done|].
    rewrite Hcands, (resolve_trigger_candidate cfg data env st job cand Hkey Hres).
    by eexists.
Qed.






(** X3: referential integrity.  Starting from an empty database, after any
    sequence of requests every candidate and interview row is stored under
    its own id, and every interview names a job and a candidate that
    exist. *)
Theorem references_always_resolve cfg rs :
  references_ok (run cfg rs empty_store).
Proof.
  assert (H : forall st, references_ok st -> references_ok (run cfg rs st)).
  { induction rs as [|r rs IH]; intros st Hst; [done|].
    rewrite run_cons. by apply IH, references_ok_handle. }
  apply H. split.
  - intros k c Hk. simpl in Hk. by rewrite lookup_empty in Hk.
  - intros iid i Hi. simpl in Hi. by rewrite lookup_empty in Hi.
Qed.

Lemma row_after_written_status cfg r st iid i :
  written_status (Interview.status i) = true ->
  written_status (Interview.status (row_after cfg r st iid i)) = true.
Proof.
  intros Hs. destruct r; simpl; try done.
  - unfold simulate_row. repeat (case_match; try done).
  - destruct n as [n|], status as [status|]; try done.
    case_match; [|done]. unfold event_row.
    destruct (terminal_report status) eqn:Ht; simpl; [|done].
    case_match; [|done]. simpl. unfold terminal_report in Ht.
    unfold written_status.
    repeat (apply orb_true_iff in Ht as [Ht|Ht]); rewrite Ht;
      by rewrite ?orb_true_r.
  - unfold record_row. repeat (case_match; try done).
  - unfold read_row. repeat (case_match; try done).
Qed.

(** X4: starting from an empty database, the status of every interview is
    always one of calling, in_progress, completed, failed, timeout,
    rejected.  The column default [created] is never stored, and [timeout]
    and [rejected] are stored as the provider reports them. *)
Theorem status_always_written cfg rs iid i :
  interviews (run cfg rs empty_store) !! iid = Some i ->
  written_status (Interview.status i) = true.
Proof.
  assert (H : forall st,
    (forall iid i, interviews st !! iid = Some i ->
                   written_status (Interview.status i) = true) ->
    forall iid i, interviews (run cfg rs st) !! iid = Some i ->
                  written_status (Interview.status i) = true).
  { clear iid i. induction rs as [|r rs IH]; intros st Hst; [done|].
    rewrite run_cons. apply IH. intros iid i' Hi'.
    destruct (interviews st !! iid) as [i|] eqn:Hi.
    - rewrite (handle_row cfg r st iid i Hi) in Hi'. injection Hi' as <-.
      apply row_after_written_status. by eapply Hst.
    - destruct r; try (rewrite handle_None in Hi'; [done| by intros | done]).
      unfold handle in *.
      destruct (trigger_interview_new_row cfg data env st iid i' Hi Hi')
        as (job & cand & s & c & _ & _ & -> & Hs & _).
      simpl. by destruct Hs as [->|[->| ->]]. }
  apply H. intros iid' i' Hi'. simpl in Hi'. by rewrite lookup_empty in Hi'.
Qed.

(** ** Webhooks that change nothing *)

Lemma failure_report_spec s :
  failure_report (Some s)
  = terminal_report s && negb (String.eqb s "completed").
Proof.
  unfold failure_report, terminal_report.
  destruct (String.eqb_spec s "completed") as [->|]; [done|].
  simpl. by rewrite andb_true_r.
Qed.

(** X5: a call-status event changes nothing, and is answered OK, when it
    reports [completed] or a status outside failed/timeout/rejected, when it
    names no interview or an unknown one, or when the interview is already
    [completed].  In particular a [completed] report never completes an
    interview. *)
Theorem voice_event_ignored n status st :
  failure_report status = false
  \/ (forall k, n = Some k ->
        interviews st !! k = None \/ status_of st k = Some "completed") ->
  voice_event n status st = (st, PlainTextResponse 200 "OK").
Proof.
  intros H. unfold voice_event. f_equal.
  destruct n as [n|], status as [status|]; try done.
  destruct (truthy n); simpl; [|done].
  destruct (terminal_report status) eqn:Ht; simpl; [|done].
  destruct (interviews st !! n) as [inter|] eqn:Hi; [|done].
  destruct (String.eqb_spec (Interview.status inter) "completed") as [Hc|Hc];
    simpl; [done|].
  destruct H as [H|H].
  - rewrite failure_report_spec, Ht in H. simpl in H.
    rewrite H. simpl. rewrite with_status_same, insert_id by done.
    apply set_interviews_same.
  - destruct (H n eq_refl) as [H'|H']; [congruence|].
    apply status_of_Some in H' as (i & Hi' & Hs). congruence.
Qed.

(** X6: a recording callback that is not answered 200 OK (no recording url,
    recording not fetched, unknown interview, missing job) leaves the
    database as it was. *)
Theorem voice_record_refused_changes_nothing iid q payload ok tr st :
  snd (voice_record iid q payload ok tr st) <> PlainTextResponse 200 "OK" ->
  fst (voice_record iid q payload ok tr st) = st.
Proof.
  unfold voice_record. repeat (case_match; simpl; try done).
Qed.

(** X7: what an accepted recording callback stores.  When the interview has
    no answer, the answer of this callback (the index, the job's question or
    "Q" followed by index + 1, the recording url, the audio path, the
    transcript, no score) becomes its only answer.  When the interview has
    an answer already, the callback is answered OK all the same and the
    database is left exactly as it was.  In both cases jobs and candidates
    stay, every other interview stays, and the interview keeps its status,
    call id and recommendation, whatever its status is. *)
Theorem voice_record_only_answers iid q payload ok tr st i :
  interviews st !! iid = Some i ->
  snd (voice_record iid q payload ok tr st) = PlainTextResponse 200 "OK" ->
  let st' := fst (voice_record iid q payload ok tr st) in
  jobs st' = jobs st
  /\ candidates st' = candidates st
  /\ (forall k, k <> iid -> interviews st' !! k = interviews st !! k)
  /\ exists qt,
       question_text (get_job st (Interview.job_id i)) q = Some qt
       /\ interviews st' !! iid
          = Some (Interview.with_answers
                    (match Interview.answers i with
                     | [] =>
                       [mkAnswer q qt (default "" (payload_rec_url payload))
                          ("/v1/artifacts/" +:+ audio_rel iid q)
                          (transcript_of tr) None None]
                     | _ :: _ => Interview.answers i
                     end) i)
       /\ (Interview.answers i <> [] -> st' = st).
Proof.
  intros Hi Hok st'.
  assert (exists qt,
    truthy_opt (payload_rec_url payload) = true /\ ok = true
    /\ question_text (get_job st (Interview.job_id i)) q = Some qt)
    as (qt & Hurl & -> & Hq).
  { revert Hok. unfold voice_record. rewrite Hi.
    repeat (case_match; simpl; try done). intros _. eexists.
    split_and!; [by apply negb_false_iff|by apply negb_false_iff|done]. }
  subst st'. rewrite (voice_record_accepted iid q payload tr st i qt) by done.
  destruct (Interview.answers i) as [|a l] eqn:Ha; simpl.
  - split_and!; try done.
    + intros k Hk. by rewrite lookup_insert_ne.
    + exists qt. split_and!; [done| |done]. by rewrite lookup_insert_eq.
  - split_and!; try done. exists qt. split_and!; [done| |done].
    by rewrite <- Ha, with_answers_same.
Qed.

(** ** Result reads *)

Lemma insert_by_q_idx_sorted a l :
  StronglySorted (fun x y => (q_idx x <= q_idx y)%Z) l ->
  StronglySorted (fun x y => (q_idx x <= q_idx y)%Z) (insert_by_q_idx a l).
Proof.
  induction 1 as [|b l Hs IH Hall]; simpl.
  - repeat constructor.
  - destruct (Z.leb_spec (q_idx a) (q_idx b)) as [Hle|Hgt].
    + constructor; [by constructor|].
      constructor; [done|].
      eapply Forall_impl; [exact Hall|]. simpl. intros. lia.
    + constructor; [done|].
      rewrite insert_by_q_idx_perm. constructor; [lia|done].
Qed.

(** [sorted_by_q_idx] sorts: the result is in non-decreasing index order. *)
Lemma sorted_by_q_idx_sorted l :
  StronglySorted (fun x y => (q_idx x <= q_idx y)%Z) (sorted_by_q_idx l).
Proof.
  induction l as [|a l IH]; simpl; [constructor|].
  by apply insert_by_q_idx_sorted.
Qed.

Lemma map_sorted_le (l : list Answer) :
  StronglySorted (fun x y => (q_idx x <= q_idx y)%Z) l ->
  StronglySorted Z.le (map q_idx l).
Proof.
  induction 1 as [|b l Hs IH Hall]; simpl; constructor; [done|].
  by apply Forall_map.
Qed.

(** X8: a read that is answered with a snapshot lists the answers in
    non-decreasing question-index order, whatever order they arrived in, and
    lists exactly the stored indices. *)
Theorem get_interview_answers_sorted cfg iid reply st i snap :
  interviews st !! iid = Some i ->
  r_response (get_interview cfg iid reply st) = Json snap ->
  StronglySorted Z.le (map q_idx (s_answers snap))
  /\ map q_idx (s_answers snap) ≡ₚ map q_idx (Interview.answers i).
Proof.
  intros Hi. unfold get_interview. rewrite Hi.
  destruct (get_job st _) as [job|]; [|done].
  assert (Hs : StronglySorted Z.le
                 (map q_idx (sorted_by_q_idx (Interview.answers i)))).
  { apply map_sorted_le, sorted_by_q_idx_sorted. }
  assert (Hp : map q_idx (sorted_by_q_idx (Interview.answers i))
               ≡ₚ map q_idx (Interview.answers i)).
  { by rewrite sorted_by_q_idx_perm. }
  destruct (needs_scoring _ i), (openai_score reply),
    (candidates st !! _); simpl; try done; intros [= <-]; simpl;
    by rewrite ?map_apply_score_q_idx.
Qed.

(** X9: a read of an interview whose answers are not complete (their number
    differs from the number of questions, or a transcript is empty) calls no
    scorer and leaves the database as it was. *)
Theorem get_interview_incomplete cfg iid reply st i job :
  interviews st !! iid = Some i ->
  get_job st (Interview.job_id i) = Some job ->
  have_all (Job.questions job) (sorted_by_q_idx (Interview.answers i)) = false ->
  r_scorer_call (get_interview cfg iid reply st) = None
  /\ r_store (get_interview cfg iid reply st) = st.
Proof.
  intros Hi Hjob Hall. apply get_interview_quiet.
  unfold quiet, needs_scoring. by rewrite Hi, Hjob, Hall.
Qed.

(** X10: a scorer failure is swallowed.  When the scorer raises, the read
    still answers with the snapshot of the interview (answers in index
    order, the recommendation as stored) and the database is unchanged, so
    the next read tries again. *)
Theorem get_interview_scorer_failure cfg iid st i job cand :
  interviews st !! iid = Some i ->
  get_job st (Interview.job_id i) = Some job ->
  candidates st !! Interview.candidate_id i = Some cand ->
  r_store (get_interview cfg iid ReplyRaises st) = st
  /\ r_response (get_interview cfg iid ReplyRaises st)
     = Json (mkSnapshot (Interview.id i) (Interview.status i) (Job.id job)
               (Job.questions job) (Candidate.id cand) (Candidate.name cand)
               (Candidate.phone_e164 cand)
               (sorted_by_q_idx (Interview.answers i))
               (Interview.final_recommendation i) (is_development_mode cfg))
  /\ r_scorer_call (get_interview cfg iid ReplyRaises st)
     = if needs_scoring (Job.questions job) i
       then Some (Job.questions job,
                  map transcript (sorted_by_q_idx (Interview.answers i)))
       else None.
Proof.
  intros Hi Hjob Hcand. unfold get_interview. rewrite Hi, Hjob, Hcand.
  by destruct (needs_scoring _ i).
Qed.

(** X11: a read that scores.  When the answers are complete and unscored and
    the scorer answers, the row gets the scorer's recommendation and the
    scored answers in index order; its status becomes [completed] unless it
    was [failed], which it stays.  The snapshot returned by this very read
    still carries the status from before the read. *)
Theorem get_interview_scores cfg iid reply st i job cand scoring :
  interviews st !! iid = Some i ->
  get_job st (Interview.job_id i) = Some job ->
  candidates st !! Interview.candidate_id i = Some cand ->
  needs_scoring (Job.questions job) i = true ->
  openai_score reply = Some scoring ->
  let out := get_interview cfg iid reply st in
  let scored :=
    map (apply_score (by_idx_of (per_answer scoring)))
        (sorted_by_q_idx (Interview.answers i)) in
  status_of (r_store out) iid
  = Some (if String.eqb (Interview.status i) "failed" then "failed"
          else "completed")
  /\ final_recommendation_of (r_store out) iid = recommendation scoring
  /\ answers_of (r_store out) iid = scored
  /\ exists snap,
       r_response out = Json snap
       /\ s_status snap = Interview.status i
       /\ s_answers snap = scored
       /\ s_final_recommendation snap = recommendation scoring.
Proof.
  intros Hi Hjob Hcand Hn Hsc out scored. subst out scored.
  unfold get_interview, status_of, final_recommendation_of, answers_of.
  rewrite Hi, Hjob, Hcand, Hn, Hsc. cbn -[String.eqb].
  rewrite lookup_insert_eq. cbn -[String.eqb].
  split_and!.
  - destruct (String.eqb (Interview.status i) "completed") eqn:Hc,
      (String.eqb (Interview.status i) "failed") eqn:Hf; simpl;
      rewrite ?String.eqb_eq in *; congruence.
  - by destruct (negb _).
  - by destruct (negb _).
  - by eexists.
Qed.

Lemma by_idx_of_snoc pa x :
  by_idx_of (pa ++ [x])
  = match pa_q_idx x with
    | Some k => <[k := x]> (by_idx_of pa)
    | None => by_idx_of pa
    end.
Proof. unfold by_idx_of. by rewrite foldl_app. Qed.

Lemma by_idx_of_lookup pa k :
  by_idx_of pa !! k = last (filter (fun x => pa_q_idx x = Some k) pa).
Proof.
  induction pa as [|x pa IH] using rev_ind; [done|].
  rewrite by_idx_of_snoc, filter_app, filter_cons, filter_nil.
  destruct (pa_q_idx x) as [k'|] eqn:Hx.
  - rewrite lookup_insert. case_decide as Hk.
    + subst k'. rewrite decide_True by done. by rewrite last_snoc.
    + rewrite decide_False by congruence. by rewrite app_nil_r.
  - rewrite decide_False by congruence. by rewrite app_nil_r.
Qed.

(** X12: how scores are matched to answers.  An answer takes the score and
    rationale of the last entry of the scorer's per_answer list that carries
    its question index; entries for other indices are ignored, and an answer
    without an entry is left as it is (a score it had before stays). *)
Theorem apply_score_last_entry pa a :
  apply_score (by_idx_of pa) a
  = match last (filter (fun x => pa_q_idx x = Some (q_idx a)) pa) with
    | Some b =>
      mkAnswer (q_idx a) (question a) (recording_url a) (local_audio a)
        (transcript a) (Some (pa_score b)) (Some (pa_rationale b))
    | None => a
    end.
Proof. unfold apply_score. by rewrite by_idx_of_lookup. Qed.

(** ** Triggers *)

(** X13: a trigger whose job or candidate cannot be resolved (no job, unknown
    candidate id, neither candidate id nor name and phone, invalid phone,
    number not whitelisted) gives that error to the caller and leaves the
    database as it was: no interview and no candidate row is created. *)
Theorem trigger_interview_unresolved cfg data env st resp :
  snd (resolve_trigger cfg data env st) = inr resp ->
  trigger_interview cfg data env st = (st, resp).
Proof.
  unfold trigger_interview, resolve_trigger, add_candidate_row.
  repeat (case_match; simplify_eq; simpl in *; try done);
    by intros [= <-].
Qed.

(** The request of scenario B: no candidate id, and name or phone missing. *)
Lemma resolve_trigger_no_candidate cfg data env st job :
  (if truthy_opt (InterviewTriggerIn.job_id data)
   then get_job st (default "" (InterviewTriggerIn.job_id data))
   else get_latest_job st) = Some job ->
  truthy_opt (InterviewTriggerIn.candidate_id data) = false ->
  truthy_opt (InterviewTriggerIn.name data)
  && truthy_opt (InterviewTriggerIn.phone_e164 data) = false ->
  resolve_trigger cfg data env st
  = (st, inr (HTTPException 400 "Provide candidate_id OR name + phone_e164")).
Proof.
  intros Hjob Hc Hnp. unfold resolve_trigger. by rewrite Hjob, Hc, Hnp.
Qed.

(** A trigger that names no candidate id and lacks the name or the phone is
    refused with 400, whatever job it is for, and nothing is stored. *)
Lemma trigger_interview_needs_candidate cfg data env st job :
  (if truthy_opt (InterviewTriggerIn.job_id data)
   then get_job st (default "" (InterviewTriggerIn.job_id data))
   else get_latest_job st) = Some job ->
  truthy_opt (InterviewTriggerIn.candidate_id data) = false ->
  truthy_opt (InterviewTriggerIn.name data)
  && truthy_opt (InterviewTriggerIn.phone_e164 data) = false ->
  trigger_interview cfg data env st
  = (st, HTTPException 400 "Provide candidate_id OR name + phone_e164").
Proof.
  intros Hjob Hc Hnp. apply trigger_interview_unresolved.
  by rewrite (resolve_trigger_no_candidate cfg data env st job).
Qed.

(** The store and row a resolved trigger starts from. *)
Lemma trigger_interview_resolved cfg data env st job cand :
  snd (resolve_trigger cfg data env st) = inl (job, cand) ->
  interviews st !! inter_uuid env = None ->
  let row :=
    Interview.mk (inter_uuid env) (Job.id job) (Candidate.id cand) "calling"
      None [] None in
  let st1 := fst (resolve_trigger cfg data env st) in
  trigger_interview cfg data env st
  = place_call cfg env job cand
      (set_interviews (<[inter_uuid env := row]> (interviews st1)) st1).
Proof.
  intros Hres Hfresh. unfold trigger_interview.
  pose proof (resolve_trigger_frame cfg data env st) as [_ Hint].
  destruct (resolve_trigger cfg data env st) as [st1 [[job' cand']|resp]];
    simpl in *; [|done].
  injection Hres as -> ->. by rewrite Hint, Hfresh.
Qed.

(** X14: in development mode no call is placed.  A resolved trigger with a
    fresh id leaves the interview [in_progress] with the made-up call id
    "dev_call_..." and answers with it, whatever the provider settings and
    the provider's response are. *)
Theorem trigger_interview_development cfg data env st job cand :
  is_development_mode cfg = true ->
  snd (resolve_trigger cfg data env st) = inl (job, cand) ->
  interviews st !! inter_uuid env = None ->
  snd (trigger_interview cfg data env st)
  = Json (mkTriggerOut (inter_uuid env)
            (Some ("dev_call_" +:+ dev_call_uuid env))
            (Candidate.id cand) (Job.id job) true)
  /\ interviews (fst (trigger_interview cfg data env st)) !! inter_uuid env
     = Some (Interview.mk (inter_uuid env) (Job.id job) (Candidate.id cand)
               "in_progress" (Some ("dev_call_" +:+ dev_call_uuid env)) []
               None).
Proof.
  intros Hdev Hres Hfresh.
  rewrite (trigger_interview_resolved cfg data env st job cand Hres Hfresh).
  unfold place_call. rewrite Hdev. simpl. split; [done|].
  rewrite update_interview_lookup, bool_decide_eq_true_2 by done.
  simpl. by rewrite lookup_insert_eq.
Qed.

(** X15: in production mode, when the provider answers the call request with
    a status below 300 and a JSON body, the interview is [in_progress] and
    its provider_call_id is the body's uuid; when the body has no uuid the
    interview is [in_progress] without a call id. *)
Theorem trigger_interview_dispatched cfg data env st job cand r call_id :
  is_development_mode cfg = false ->
  vonage_configured cfg = true ->
  snd (resolve_trigger cfg data env st) = inl (job, cand) ->
  interviews st !! inter_uuid env = None ->
  vonage_response env = PostReturns r ->
  (status_code r < 300)%Z ->
  json_uuid r = Some call_id ->
  snd (trigger_interview cfg data env st)
  = Json (mkTriggerOut (inter_uuid env) call_id (Candidate.id cand)
            (Job.id job) false)
  /\ interviews (fst (trigger_interview cfg data env st)) !! inter_uuid env
     = Some (Interview.mk (inter_uuid env) (Job.id job) (Candidate.id cand)
               "in_progress" call_id [] None).
Proof.
  intros Hdev Hcfg Hres Hfresh Hpost Hcode Hjson.
  rewrite (trigger_interview_resolved cfg data env st job cand Hres Hfresh).
  unfold place_call. rewrite Hdev, Hcfg, Hpost, Hjson. simpl.
  rewrite (proj2 (Z.leb_gt _ _) Hcode). simpl. split; [done|].
  rewrite update_interview_lookup, bool_decide_eq_true_2 by done.
  simpl. by rewrite lookup_insert_eq.
Qed.

(** X16: in production mode, a trigger that cannot build the provider token
    (application id or key file missing) is answered 500, and one whose call
    request raises, or is accepted with a body that is not JSON, ends in an
    unhandled error; in all these cases the interview row stays in status
    [calling] without a call id. *)
Theorem trigger_interview_left_calling cfg data env st job cand :
  is_development_mode cfg = false ->
  snd (resolve_trigger cfg data env st) = inl (job, cand) ->
  interviews st !! inter_uuid env = None ->
  vonage_configured cfg = false
  \/ (exists exn, vonage_response env = PostRaises exn)
  \/ (exists r, vonage_response env = PostReturns r
               /\ (status_code r < 300)%Z /\ json_uuid r = None) ->
  snd (trigger_interview cfg data env st)
  = (if vonage_configured cfg then
       match vonage_response env with
       | PostRaises exn => Uncaught exn
       | PostReturns _ => Uncaught "JSONDecodeError"
       end
     else HTTPException 500 "Vonage app/private key not configured")
  /\ interviews (fst (trigger_interview cfg data env st)) !! inter_uuid env
     = Some (Interview.mk (inter_uuid env) (Job.id job) (Candidate.id cand)
               "calling" None [] None).
Proof.
  intros Hdev Hres Hfresh Hcase.
  rewrite (trigger_interview_resolved cfg data env st job cand Hres Hfresh).
  unfold place_call. rewrite Hdev. simpl.
  destruct (vonage_configured cfg) eqn:Hcfg; simpl.
  - destruct Hcase as [?|[[exn Hpost]|(r & Hpost & Hcode & Hjson)]]; [done| |];
      rewrite Hpost; simpl.
    + by rewrite lookup_insert_eq.
    + rewrite (proj2 (Z.leb_gt _ _) Hcode), Hjson. simpl.
      by rewrite lookup_insert_eq.
  - by rewrite lookup_insert_eq.
Qed.

(** ** Candidates *)

(** X17: a candidate is stored only with a phone number the phone library
    accepts, in the E.164 form it returns, under the id drawn; and in
    production mode with a non-empty whitelist only when that number is on
    the whitelist.  Otherwise nothing is stored. *)
Theorem add_candidate_stored cfg name phone cid st :
  match snd (add_candidate cfg name phone cid st) with
  | Json c =>
    exists p,
      phonenumbers_e164 cfg phone = Some p
      /\ c = Candidate.mk cid name p None
      /\ candidates st !! cid = None
      /\ candidates (fst (add_candidate cfg name phone cid st)) !! cid = Some c
      /\ (is_development_mode cfg = true
          \/ OUTBOUND_WHITELIST cfg = ∅
          \/ p ∈ OUTBOUND_WHITELIST cfg)
  | _ => fst (add_candidate cfg name phone cid st) = st
  end.
Proof.
  unfold add_candidate, to_e164, add_candidate_row, ensure_whitelisted.
  destruct (phonenumbers_e164 cfg phone) as [p|] eqn:Hp; simpl; [|done].
  destruct (is_development_mode cfg) eqn:Hdev; simpl.
  - destruct (candidates st !! cid) eqn:Hc; simpl; [done|].
    exists p. rewrite lookup_insert_eq. split_and!; auto.
  - case_bool_decide as Hwl; simpl.
    + case_bool_decide as Hin; simpl; [|done].
      destruct (candidates st !! cid) eqn:Hc; simpl; [done|].
      exists p. rewrite lookup_insert_eq. split_and!; auto.
    + destruct (candidates st !! cid) eqn:Hc; simpl; [done|].
      exists p. rewrite lookup_insert_eq. split_and!; auto.
Qed.

(** X18: the whitelist check.  In production mode with a non-empty
    whitelist, adding a candidate whose normalised number is not on it is
    refused with 403 and stores nothing, and so is a trigger that would
    create that candidate. *)
Theorem whitelist_refuses cfg name phone p st :
  is_development_mode cfg = false ->
  OUTBOUND_WHITELIST cfg <> ∅ ->
  phonenumbers_e164 cfg phone = Some p ->
  p ∉ OUTBOUND_WHITELIST cfg ->
  (forall cid,
     add_candidate cfg name phone cid st
     = (st, HTTPException 403 "Outbound number not in whitelist"))
  /\ (forall data env job,
        get_latest_job st = Some job ->
        data = InterviewTriggerIn.mk None (Some name) (Some phone) None
                 (InterviewTriggerIn.from_number data) ->
        truthy name = true -> truthy phone = true ->
        trigger_interview cfg data env st
        = (st, HTTPException 403 "Outbound number not in whitelist")).
Proof.
  intros Hdev Hwl Hp Hin.
  assert (Hcheck : ensure_whitelisted cfg p
                   = Some (403%Z, "Outbound number not in whitelist")).
  { unfold ensure_whitelisted.
    by rewrite bool_decide_eq_true_2, bool_decide_eq_false_2. }
  split.
  - intros cid. unfold add_candidate, to_e164. by rewrite Hp, Hdev, Hcheck.
  - intros data env job Hjob -> Hn Hph. apply trigger_interview_unresolved.
    unfold resolve_trigger, to_e164. simpl.
    by rewrite Hjob, Hn, Hph, Hp, Hdev, Hcheck.
Qed.

(** X19: attaching resume metadata overwrites: the last attachment wins,
    attaching the same metadata twice is attaching it once, the candidate's
    name and phone stay, and an unknown candidate id is answered 404 with
    nothing stored. *)
Theorem attach_resume_meta_overwrites cid m1 m2 st :
  fst (attach_resume_meta cid m2 (fst (attach_resume_meta cid m1 st)))
  = fst (attach_resume_meta cid m2 st)
  /\ match candidates st !! cid with
     | Some c =>
       attach_resume_meta cid m2 st
       = (set_candidates
            (<[cid := Candidate.mk (Candidate.id c) (Candidate.name c)
                        (Candidate.phone_e164 c) (Some m2)]> (candidates st))
            st,
          Json true)
     | None =>
       attach_resume_meta cid m2 st
       = (st, HTTPException 404 "Candidate not found")
     end.
Proof.
  unfold attach_resume_meta.
  destruct (candidates st !! cid) as [c|] eqn:Hc; simpl; [|by rewrite Hc].
  rewrite lookup_insert_eq. simpl. split; [|done].
  unfold set_candidates. simpl. by rewrite insert_insert_eq.
Qed.

(** ** Jobs *)

Lemma get_job_None st k : get_job st k = None -> k ∉ map Job.id (jobs st).
Proof.
  unfold get_job. induction (jobs st) as [|j l IH]; simpl.
  - intros _. apply not_elem_of_nil.
  - destruct (String.eqb_spec (Job.id j) k) as [|Hne]; [done|].
    intros H. apply not_elem_of_cons. split; [congruence|by apply IH].
Qed.

(** The job table after a request: the same, or one new job at the front
    whose id was free and whose description is not empty. *)
Lemma handle_jobs cfg r st :
  jobs (handle cfg r st) = jobs st
  \/ exists j,
       jobs (handle cfg r st) = j :: jobs st
       /\ get_job st (Job.id j) = None
       /\ truthy (Job.jd_text j) = true.
Proof.
  destruct r; unfold handle.
  - unfold jd_to_questions.
    repeat (case_match; simpl; auto);
      right; eexists; (split_and!; [done|done|]);
      simpl; by apply negb_false_iff.
  - left. unfold add_candidate, add_candidate_row.
    repeat (case_match; simplify_eq; simpl; try done).
  - left. unfold attach_resume_meta. by case_match.
  - left. unfold trigger_interview.
    pose proof (resolve_trigger_frame cfg data env st) as [Hjobs _].
    destruct (resolve_trigger cfg data env st) as [st1 [[job cand]|resp]];
      simpl in *; [|done].
    destruct (interviews st1 !! inter_uuid env); simpl; [done|].
    by rewrite place_call_jobs.
  - left. unfold simulate_answers. repeat (case_match; simpl; try done).
  - left. unfold voice_event. repeat (case_match; simpl; try done).
  - left. unfold voice_record. repeat (case_match; simpl; try done).
  - left. rewrite get_interview_store. repeat (case_match; simpl; try done).
Qed.

(** X20: starting from an empty database, job ids are pairwise distinct and
    every job has a non-empty description, whatever the requests were. *)
Theorem jobs_distinct_and_described cfg rs :
  NoDup (map Job.id (jobs (run cfg rs empty_store)))
  /\ Forall (fun j => truthy (Job.jd_text j) = true)
            (jobs (run cfg rs empty_store)).
Proof.
  assert (H : forall st,
    NoDup (map Job.id (jobs st))
    /\ Forall (fun j => truthy (Job.jd_text j) = true) (jobs st) ->
    NoDup (map Job.id (jobs (run cfg rs st)))
    /\ Forall (fun j => truthy (Job.jd_text j) = true) (jobs (run cfg rs st))).
  { induction rs as [|r rs IH]; intros st Hst; [done|].
    rewrite run_cons. apply IH. destruct Hst as [Hnd Hall].
    destruct (handle_jobs cfg r st) as [->|(j & -> & Hfree & Htext)]; [done|].
    split; simpl.
    - apply NoDup_cons. split; [by apply get_job_None|done].
    - by constructor. }
  apply H. simpl. split; constructor.
Qed.

(** X21: a job that [jd_to_questions] stored is found under its id, with the
    description stripped of surrounding white space and the questions as
    generated.  It becomes the latest job only when the second of its
    creation is later than that of the job that was the latest: a job
    created within the same second as the latest job leaves that one the
    latest.  A trigger that names no job interviews for the latest job. *)
Theorem jd_to_questions_stored cfg jd file qs job_id now st questions :
  snd (jd_to_questions cfg jd file qs job_id now st) = Json (job_id, questions) ->
  let st' := fst (jd_to_questions cfg jd file qs job_id now st) in
  let job :=
    Job.mk job_id
      (py_strip cfg
         (default "" (match file with Some fb => Some fb | None => jd end)))
      questions now in
  get_job st' job_id = Some job
  /\ get_latest_job st'
     = match get_latest_job st with
       | Some k => if (Job.created_at k <? now)%Z then Some job else Some k
       | None => Some job
       end
  /\ forall data env job' cand,
       truthy_opt (InterviewTriggerIn.job_id data) = false ->
       snd (resolve_trigger cfg data env st') = inl (job', cand) ->
       get_latest_job st' = Some job'.
Proof.
  intros Hok st' job.
  assert (Hst : st' = set_jobs (job :: jobs st) st).
  { subst st' job. revert Hok. unfold jd_to_questions.
    repeat (case_match; simpl; try done); by intros [= <-]. }
  rewrite Hst. split_and!.
  - unfold get_job. simpl. by rewrite String.eqb_refl.
  - done.
  - intros data env job' cand Hj. unfold resolve_trigger, add_candidate_row.
    rewrite Hj.
    repeat (case_match; simplify_eq; simpl; try done); by intros [= <- <-].
Qed.

(** ** The development endpoint *)

Lemma fake_template_truthy k f : truthy (fake_template k f) = true.
Proof. by destruct k as [|[|[|[|k]]]]. Qed.

Lemma generate_fake_answers_length questions draw :
  length (generate_fake_answers questions draw) = length questions.
Proof. unfold generate_fake_answers. apply length_imap. Qed.

Lemma generate_fake_answers_truthy questions draw :
  forallb truthy (generate_fake_answers questions draw) = true.
Proof.
  unfold generate_fake_answers.
  assert (H : forall (off : nat) (l : list string),
    forallb truthy
      (imap (fun i _ => fake_template ((off + i) mod 5)
                          (fake_fields (draw (off + i)))) l) = true).
  { intros off l. revert off. induction l as [|q l IH]; intros off; [done|].
    simpl. rewrite fake_template_truthy. simpl.
    rewrite <- (IH (S off)). f_equal. apply imap_ext. intros i x _. simpl.
    by rewrite Nat.add_succ_r. }
  exact (H 0 questions).
Qed.

Lemma fake_answer_records_transcripts iid idx qs ts :
  length qs = length ts ->
  map transcript (fake_answer_records iid idx qs ts) = ts.
Proof.
  revert idx ts. induction qs as [|q qs IH]; intros idx [|t ts] Hlen;
    simpl in *; try done.
  f_equal. apply IH. lia.
Qed.

Lemma fake_answer_records_sorted iid idx qs ts :
  StronglySorted (fun x y => (q_idx x <= q_idx y)%Z)
    (fake_answer_records iid idx qs ts)
  /\ Forall (fun a => (idx <= q_idx a)%Z) (fake_answer_records iid idx qs ts).
Proof.
  revert idx ts. induction qs as [|q qs IH]; intros idx [|t ts]; simpl;
    try (split; constructor).
  - apply (IH (idx + 1)%Z ts).
  - simpl. eapply Forall_impl; [apply (IH (idx + 1)%Z ts)|]. simpl. intros. lia.
  - simpl. lia.
  - eapply Forall_impl; [apply (IH (idx + 1)%Z ts)|]. simpl. intros. lia.
Qed.

Lemma fake_answer_records_unscored iid idx qs ts :
  existsb has_score (fake_answer_records iid idx qs ts) = false.
Proof.
  revert idx ts. induction qs as [|q qs IH]; intros idx [|t ts]; simpl; done.
Qed.

(** A list in index order is its own sorting. *)
Lemma sorted_by_q_idx_id l :
  StronglySorted (fun x y => (q_idx x <= q_idx y)%Z) l -> sorted_by_q_idx l = l.
Proof.
  induction 1 as [|a l Hs IH Hall]; simpl; [done|].
  rewrite IH. destruct l as [|b l]; simpl; [done|].
  apply Forall_cons in Hall as [Hab _].
  by rewrite (proj2 (Z.leb_le _ _) Hab).
Qed.

(** X22: simulate-answers in development mode replaces whatever answers the
    interview had by one generated answer per question, numbered 0, 1, ...
    in order, each with a non-empty transcript and no score, and sets the
    status to [completed]; the read that follows calls the scorer with the
    job's questions and exactly these transcripts. *)
Theorem simulate_answers_then_read cfg iid st i job draw reply :
  is_development_mode cfg = true ->
  interviews st !! iid = Some i ->
  get_job st (Interview.job_id i) = Some job ->
  let fake := generate_fake_answers (Job.questions job) draw in
  let st' := fst (simulate_answers cfg iid fake st) in
  status_of st' iid = Some "completed"
  /\ map q_idx (answers_of st' iid)
     = seqZ 0 (Z.of_nat (length (Job.questions job)))
  /\ map transcript (answers_of st' iid) = fake
  /\ forallb truthy fake = true
  /\ r_scorer_call (get_interview cfg iid reply st')
     = Some (Job.questions job, fake).
Proof.
  intros Hdev Hi Hjob fake st'.
  assert (Hlen : length (Job.questions job) = length fake).
  { subst fake. by rewrite generate_fake_answers_length. }
  assert (Hrow : interviews st' !! iid
    = Some (Interview.with_status "completed"
              (Interview.with_answers
                 (fake_answer_records iid 0 (Job.questions job) fake) i))).
  { subst st'. unfold simulate_answers. rewrite Hdev, Hi, Hjob. simpl.
    by rewrite lookup_insert_eq. }
  assert (Hjob' : get_job st' (Interview.job_id i) = Some job).
  { subst st'. unfold simulate_answers. by rewrite Hdev, Hi, Hjob. }
  unfold status_of, answers_of. rewrite Hrow. simpl.
  split_and!; try done.
  - rewrite fake_answer_records_q_idx, <- Hlen. by rewrite Nat.min_id.
  - by apply fake_answer_records_transcripts.
  - apply generate_fake_answers_truthy.
  - rewrite (get_interview_scorer_call cfg iid reply st' _ job Hrow Hjob').
    + simpl. rewrite sorted_by_q_idx_id by apply fake_answer_records_sorted.
      by rewrite fake_answer_records_transcripts.
    + unfold needs_scoring, have_all. simpl.
      rewrite sorted_by_q_idx_id by apply fake_answer_records_sorted.
      rewrite fake_answer_records_unscored, fake_answer_records_transcripts
        by done.
      rewrite orb_true_r, andb_true_r.
      rewrite bool_decide_eq_true_2.
      * apply generate_fake_answers_truthy.
      * rewrite <- (length_map q_idx), fake_answer_records_q_idx, length_seqZ.
        rewrite <- Hlen, Nat.min_id. lia.
Qed.

(** X23: outside development mode simulate-answers is refused with 400
    "This endpoint is only available in development mode"; in development
    mode an unknown interview is answered 404 "Interview not found" and an
    interview without its job 404 "Job not found".  Nothing is stored in any
    of the three cases. *)
Theorem simulate_answers_refused cfg iid fake st :
  (is_development_mode cfg = false ->
   simulate_answers cfg iid fake st
   = (st, HTTPException 400 "This endpoint is only available in development mode"))
  /\ (is_development_mode cfg = true ->
      interviews st !! iid = None ->
      simulate_answers cfg iid fake st
      = (st, HTTPException 404 "Interview not found"))
  /\ (forall i,
        is_development_mode cfg = true ->
        interviews st !! iid = Some i ->
        get_job st (Interview.job_id i) = None ->
        simulate_answers cfg iid fake st
        = (st, HTTPException 404 "Job not found")).
Proof.
  unfold simulate_answers. split_and!.
  - by intros ->.
  - by intros -> ->.
  - by intros i -> -> ->.
Qed.

(** ** The call script *)

Lemma question_actions_from cfg inter_id (off : nat) questions k q :
  questions !! k = Some q ->
  let actions :=
    mjoin (imap (fun i => question_actions cfg inter_id (off + i)) questions) in
  actions !! (2 * k)
  = Some (NccoTalk ("Question " +:+ str_of_int (Z.of_nat (off + k) + 1)
                      +:+ ". " +:+ q))
  /\ actions !! (2 * k + 1)
     = Some (NccoRecord true 3 "mp3"
               [PUBLIC_BASE_URL cfg +:+ "/v1/voice/record?interview_id="
                  +:+ inter_id +:+ "&q_idx="
                  +:+ str_of_int (Z.of_nat (off + k))]).
Proof.
  revert off k. induction questions as [|x l IH]; intros off k Hk; [done|].
  destruct k as [|k]; simpl in *.
  - injection Hk as ->. by rewrite Nat.add_0_r.
  - destruct (IH (S off) k Hk) as [H1 H2].
    replace (k + S (k + 0)) with (S (2 * k)) by lia. simpl.
    rewrite (imap_ext _ (fun i => question_actions cfg inter_id (S off + i)))
      by (intros; simpl; by rewrite Nat.add_succ_r).
    rewrite Nat.add_succ_r. exact (conj H1 H2).
Qed.

Lemma length_question_actions cfg inter_id (off : nat) questions :
  length (mjoin (imap (fun i => question_actions cfg inter_id (off + i))
                      questions))
  = 2 * length questions.
Proof.
  revert off. induction questions as [|x l IH]; intros off; [done|].
  simpl.
  rewrite (imap_ext _ (fun i => question_actions cfg inter_id (S off + i)))
    by (intros; simpl; by rewrite Nat.add_succ_r).
  rewrite (IH (S off)). lia.
Qed.

(** X24: the call script of an interview has, for each question in order,
    an announcement "Question k+1. ..." followed by a recording whose
    callback URL names the interview and the 0-based index k of that
    question, and ends with the closing announcement: 2n + 1 actions for n
    questions.  Every index a callback of the script names is an index of
    the job's questions. *)
Theorem record_actions_script cfg inter_id questions :
  length (record_actions cfg inter_id questions) = 2 * length questions + 1
  /\ record_actions cfg inter_id questions !! (2 * length questions)
     = Some (NccoTalk "Thanks. This concludes the interview. Goodbye.")
  /\ forall k q,
       questions !! k = Some q ->
       k < length questions
       /\ record_actions cfg inter_id questions !! (2 * k)
          = Some (NccoTalk ("Question " +:+ str_of_int (Z.of_nat k + 1)
                              +:+ ". " +:+ q))
       /\ record_actions cfg inter_id questions !! (2 * k + 1)
          = Some (NccoRecord true 3 "mp3"
                    [PUBLIC_BASE_URL cfg +:+ "/v1/voice/record?interview_id="
                       +:+ inter_id +:+ "&q_idx=" +:+ str_of_int (Z.of_nat k)]).
Proof.
  unfold record_actions.
  pose proof (length_question_actions cfg inter_id 0 questions) as Hlen.
  change (fun i => question_actions cfg inter_id (0 + i))
    with (question_actions cfg inter_id) in Hlen.
  split_and!.
  - rewrite length_app, Hlen. simpl. lia.
  - rewrite lookup_app_r by lia. by rewrite Hlen, Nat.sub_diag.
  - intros k q Hk.
    pose proof (lookup_lt_Some _ _ _ Hk) as Hlt.
    destruct (question_actions_from cfg inter_id 0 questions k q Hk) as [H1 H2].
    change (fun i => question_actions cfg inter_id (0 + i))
      with (question_actions cfg inter_id) in H1, H2.
    split; [done|].
    rewrite !lookup_app_l by lia. done.
Qed.

(** ** Deliveries one after the other *)

Lemma question_text_total job q : is_Some (question_text (Some job) q).
Proof. unfold question_text. repeat case_match; by eexists. Qed.

(** Deliveries to an interview that has an answer leave the store as it
    is. *)
Lemma run_deliveries_dropped cfg iid ds st i job :
  interviews st !! iid = Some i ->
  Interview.answers i <> [] ->
  get_job st (Interview.job_id i) = Some job ->
  Forall (fun d => truthy_opt (payload_rec_url (d_payload d)) = true) ds ->
  run cfg (map (deliver iid) ds) st = st.
Proof.
  intros Hi Ha Hjob. induction 1 as [|d ds Hu _ IH]; [done|].
  simpl map. rewrite run_cons.
  destruct (question_text_total job (d_q_idx d)) as [qt Hqt].
  change (handle cfg (deliver iid d) st)
    with (fst (voice_record iid (d_q_idx d) (d_payload d) true (d_tr d) st)).
  rewrite (voice_record_accepted iid _ _ _ st i qt) by (by rewrite ?Hjob).
  simpl. by destruct (Interview.answers i).
Qed.

(** X25: of the recording callbacks that reach an interview without answers,
    one after the other, only the first is stored: after them the interview
    holds the answer of the first delivery and no other, whatever the
    indices of the later ones, and the rest of the database is as it was. *)
Theorem deliveries_first_only cfg iid d ds st i job :
  interviews st !! iid = Some i ->
  Interview.answers i = [] ->
  get_job st (Interview.job_id i) = Some job ->
  Forall (fun d => truthy_opt (payload_rec_url (d_payload d)) = true) (d :: ds) ->
  run cfg (map (deliver iid) (d :: ds)) st
  = set_interviews
      (<[iid := Interview.with_answers [delivered_answer job iid d] i]>
         (interviews st)) st.
Proof.
  intros Hi Ha Hjob [Hu Hurl]%Forall_cons.
  destruct (question_text_total job (d_q_idx d)) as [qt Hqt].
  simpl map. rewrite run_cons. change (handle cfg (deliver iid d) st)
    with (fst (voice_record iid (d_q_idx d) (d_payload d) true (d_tr d) st)).
  rewrite (voice_record_accepted iid _ _ _ st i qt) by (by rewrite ?Hjob).
  rewrite Ha. simpl fst.
  unfold delivered_answer. rewrite Hqt. simpl default at 1.
  eapply (run_deliveries_dropped cfg iid ds _ _ job).
  - simpl. apply lookup_insert_eq.
  - done.
  - done.
  - done.
Qed.

(** ** Answers in production mode *)

Lemma row_after_one_answer cfg r st iid i :
  is_development_mode cfg = false ->
  length (Interview.answers i) <= 1 ->
  length (Interview.answers (row_after cfg r st iid i)) <= 1.
Proof.
  intros Hdev Hlen. destruct r; simpl; try done.
  - case_bool_decide; [|done]. unfold simulate_row. by rewrite Hdev.
  - destruct n as [n|], status as [status|]; try done.
    case_match; [|done]. unfold event_row. by case_match.
  - case_bool_decide; [|done]. unfold record_row.
    case_match; [|done]. case_match; [|done]. simpl.
    by destruct (Interview.answers i).
  - case_bool_decide; [|done]. unfold read_row.
    repeat (case_match; try done); simpl;
      by rewrite length_map, (Permutation_length (sorted_by_q_idx_perm _)).
Qed.

Lemma one_answer_run cfg rs st :
  is_development_mode cfg = false ->
  (forall iid i, interviews st !! iid = Some i ->
                 length (Interview.answers i) <= 1) ->
  forall iid i, interviews (run cfg rs st) !! iid = Some i ->
                length (Interview.answers i) <= 1.
Proof.
  intros Hdev. revert st. induction rs as [|r rs IH]; intros st Hst; [done|].
  rewrite run_cons. apply IH. intros iid i' Hi'.
  destruct (interviews st !! iid) as [i|] eqn:Hi.
  - rewrite (handle_row cfg r st iid i Hi) in Hi'. injection Hi' as <-.
    apply row_after_one_answer; [done|]. by eapply Hst.
  - destruct (handle_new_row cfg r st iid i' Hi Hi') as (-> & _). simpl. lia.
Qed.

(** X28: in production mode, starting from an empty database, no interview
    ever holds more than one answer, whatever callbacks arrive; so an
    interview for a job with two or more questions never has all its
    answers: every read of it leaves the database as it is and calls no
    scorer. *)
Theorem production_one_answer cfg rs iid i job reply :
  is_development_mode cfg = false ->
  interviews (run cfg rs empty_store) !! iid = Some i ->
  get_job (run cfg rs empty_store) (Interview.job_id i) = Some job ->
  length (Interview.answers i) <= 1
  /\ (2 <= length (Job.questions job) ->
      r_scorer_call (get_interview cfg iid reply (run cfg rs empty_store)) = None
      /\ r_store (get_interview cfg iid reply (run cfg rs empty_store))
         = run cfg rs empty_store).
Proof.
  intros Hdev Hi Hjob.
  assert (Hlen : length (Interview.answers i) <= 1).
  { apply (one_answer_run cfg rs empty_store Hdev) with (iid := iid); [|done].
    intros k x Hk. simpl in Hk. by rewrite lookup_empty in Hk. }
  split; [done|]. intros Hq. apply get_interview_quiet.
  unfold quiet. rewrite Hi, Hjob. apply negb_true_iff.
  unfold needs_scoring, have_all.
  rewrite bool_decide_eq_false_2; [done|].
  rewrite (Permutation_length (sorted_by_q_idx_perm _)). lia.
Qed.

(** ** Paths below the artifact root *)

Lemma app_cons c a b : String c a +:+ b = String c (a +:+ b).
Proof. done. Qed.

Lemma app_nil_l_str a : "" +:+ a = a.
Proof. done. Qed.

Lemma app_nil_r_str a : a +:+ "" = a.
Proof. induction a as [|c a IH]; [done|]. by rewrite app_cons, IH. Qed.

Lemma app_assoc_str a b c : (a +:+ b) +:+ c = a +:+ (b +:+ c).
Proof. induction a as [|x a IH]; [done|]. by rewrite !app_cons, IH. Qed.

Lemma prefix_app a b : String.prefix a (a +:+ b) = true.
Proof.
  induction a as [|x a IH].
  - by destruct b.
  - rewrite app_cons. simpl. destruct (Ascii.ascii_dec x x); [done|congruence].
Qed.

Lemma split_sep_nonempty s : split_sep s <> [].
Proof. destruct s as [|c s]; simpl; [done|]. repeat case_match; done. Qed.

Lemma split_sep_app a b :
  split_sep (a +:+ "/" +:+ b) = split_sep a ++ split_sep b.
Proof.
  induction a as [|c a IH]; [done|].
  rewrite app_cons. cbn [split_sep]. rewrite IH.
  destruct (String.eqb (String c "") "/"); [done|].
  pose proof (split_sep_nonempty a).
  by destruct (split_sep a).
Qed.

Lemma split_sep_no_sep c : has_sep c = false -> split_sep c = [c].
Proof.
  induction c as [|x c IH]; [done|]. cbn [has_sep split_sep].
  intros [Hx Hc]%orb_false_iff. rewrite Hx, IH by done. done.
Qed.

Lemma clean_component_spec c :
  clean_component c = true ->
  c <> "" /\ c <> "." /\ c <> ".." /\ has_sep c = false.
Proof.
  unfold clean_component, truthy.
  rewrite !andb_true_iff, !negb_true_iff, !String.eqb_neq. tauto.
Qed.

Lemma split_sep_concat cs :
  cs <> [] -> forallb clean_component cs = true ->
  split_sep (String.concat "/" cs) = cs.
Proof.
  induction cs as [|c cs IH]; [done|]. intros _. simpl.
  intros [Hc Hcs]%andb_true_iff.
  apply clean_component_spec in Hc as (_ & _ & _ & Hc).
  destruct cs as [|c' cs]; [by apply split_sep_no_sep|].
  rewrite split_sep_app, split_sep_no_sep, IH by done. done.
Qed.

Lemma prefix_nil s : String.prefix "" s = true.
Proof. by destruct s. Qed.

Lemma rev_app_independent c acc acc' :
  c <> "" ->
  String.prefix "/" (String.rev_app c acc) = String.prefix "/" (String.rev_app c acc').
Proof.
  revert acc acc'. induction c as [|x c IH]; intros acc acc' Hc; [done|].
  cbn [String.rev_app]. destruct c as [|y c].
  - cbn [String.rev_app String.prefix].
    destruct (Ascii.ascii_dec _ x); [|done]. by rewrite !prefix_nil.
  - by apply IH.
Qed.

Lemma rev_app_app_str a b acc :
  String.rev_app (a +:+ b) acc = String.rev_app b (String.rev_app a acc).
Proof.
  revert acc. induction a as [|x a IH]; intros acc; [done|].
  rewrite app_cons. cbn [String.rev_app]. apply IH.
Qed.

Lemma endswith_sep_app a b : b <> "" -> endswith_sep (a +:+ b) = endswith_sep b.
Proof.
  intros Hb. unfold endswith_sep, String.rev. rewrite rev_app_app_str.
  by apply rev_app_independent.
Qed.

Lemma has_sep_head x c :
  has_sep (String x c) = false -> String.prefix "/" (String x c) = false.
Proof.
  cbn [has_sep]. intros [Hx _]%orb_false_iff.
  cbn [String.prefix]. destruct (Ascii.ascii_dec _ x) as [<-|]; [|done].
  by vm_compute in Hx.
Qed.

Lemma rev_app_no_sep c acc :
  has_sep c = false -> c = "" \/ String.prefix "/" (String.rev_app c acc) = false.
Proof.
  revert acc. induction c as [|x c IH]; intros acc Hc; [by left|right].
  cbn [String.rev_app]. destruct c as [|y c].
  - cbn [String.rev_app]. pose proof (has_sep_head x "" Hc) as Hx.
    cbn [String.prefix] in *. by destruct (Ascii.ascii_dec _ x).
  - cbn [has_sep] in Hc. apply orb_false_iff in Hc as [_ Hc].
    by destruct (IH (String x acc) Hc).
Qed.

Lemma endswith_sep_no_sep c : c <> "" -> has_sep c = false -> endswith_sep c = false.
Proof.
  intros Hne Hc. unfold endswith_sep, String.rev.
  by destruct (rev_app_no_sep c "" Hc).
Qed.

Lemma endswith_sep_concat pre cs :
  cs <> [] -> forallb clean_component cs = true ->
  endswith_sep (pre +:+ String.concat "/" cs) = false.
Proof.
  revert pre. induction cs as [|c cs IH]; intros pre Hne; [done|].
  cbn [forallb]. intros [Hc Hcs]%andb_true_iff.
  apply clean_component_spec in Hc as (Hc1 & _ & _ & Hc2).
  cbn [String.concat]. destruct cs as [|c' cs].
  - rewrite endswith_sep_app by done. by apply endswith_sep_no_sep.
  - rewrite <- !app_assoc_str. by apply IH.
Qed.

Lemma concat_head_no_sep cs rest :
  cs <> [] -> forallb clean_component cs = true ->
  String.prefix "/" (String.concat "/" cs +:+ rest) = false.
Proof.
  destruct cs as [|c cs]; [done|]. intros _.
  cbn [forallb]. intros [Hc _]%andb_true_iff.
  apply clean_component_spec in Hc as (Hc1 & _ & _ & Hc2).
  destruct c as [|x c]; [done|].
  pose proof (has_sep_head x c Hc2) as Hx.
  cbn [String.concat]. destruct cs; rewrite ?app_cons;
    cbn [String.prefix] in *;
    (destruct (Ascii.ascii_dec _ x); [by rewrite prefix_nil in Hx|done]).
Qed.

Lemma concat_app_str cs more :
  cs <> [] ->
  String.concat "/" (cs ++ more)
  = match more with
    | [] => String.concat "/" cs
    | _ => String.concat "/" cs +:+ "/" +:+ String.concat "/" more
    end.
Proof.
  induction cs as [|c cs IH]; [done|]. intros _.
  destruct cs as [|c' cs].
  - simpl. by destruct more.
  - change ((c :: c' :: cs) ++ more) with (c :: ((c' :: cs) ++ more)).
    cbn [String.concat app]. cbn [String.concat app] in IH.
    rewrite IH by done. destruct more; [done|].
    by rewrite !app_assoc_str.
Qed.

(** The loop of [normpath] on an absolute path without [".."] components
    drops the empty and ["."] components and keeps the rest in order. *)
Lemma normpath_fold acc comps :
  ".." ∉ comps ->
  foldl (normpath_step 1) acc comps = acc ++ List.filter kept_component comps.
Proof.
  revert acc. induction comps as [|c comps IH]; intros acc Hnot.
  - by rewrite app_nil_r.
  - apply not_elem_of_cons in Hnot as [Hc Hnot].
    cbn [foldl List.filter]. rewrite IH by done.
    unfold normpath_step, kept_component.
    destruct (String.eqb c "" || String.eqb c "."); simpl; [done|].
    rewrite (proj2 (String.eqb_neq c "..")) by done. simpl.
    by rewrite <- app_assoc.
Qed.

Lemma filter_clean cs :
  forallb clean_component cs = true -> List.filter kept_component cs = cs.
Proof.
  induction cs as [|c cs IH]; [done|]. cbn [forallb List.filter].
  intros [Hc Hcs]%andb_true_iff. rewrite IH by done.
  apply clean_component_spec in Hc as (Hc1 & Hc2 & _ & _).
  unfold kept_component.
  by rewrite (proj2 (String.eqb_neq c "")), (proj2 (String.eqb_neq c ".")).
Qed.

Lemma not_dotdot_clean cs :
  forallb clean_component cs = true -> ".." ∉ cs.
Proof.
  induction cs as [|c cs IH]; [intros _; apply not_elem_of_nil|].
  cbn [forallb]. intros [Hc Hcs]%andb_true_iff.
  apply clean_component_spec in Hc as (_ & _ & Hc & _).
  apply not_elem_of_cons. split; [congruence|by apply IH].
Qed.

(** The normal form of a request path joined to the root, when the request
    path is relative and has no [".."] component. *)
Lemma normpath_below_root cs path :
  cs <> [] -> forallb clean_component cs = true ->
  String.prefix "/" path = false ->
  ".." ∉ split_sep path ->
  let root := "/" +:+ String.concat "/" cs in
  path_join root path = root +:+ "/" +:+ path
  /\ normpath (root +:+ "/" +:+ path)
     = "/" +:+ String.concat "/"
                 (cs ++ List.filter kept_component (split_sep path)).
Proof.
  intros Hne Hcs Hrel Hdd root. split.
  - unfold path_join. rewrite Hrel. subst root.
    by rewrite endswith_sep_concat.
  - subst root. rewrite app_assoc_str.
    set (rest := String.concat "/" cs +:+ "/" +:+ path).
    assert (Hrest : String.prefix "/" rest = false).
    { subst rest. by apply concat_head_no_sep. }
    assert (Hsplit : split_sep ("/" +:+ rest)
                     = "" :: cs ++ split_sep path).
    { subst rest. change ("/" +:+ ?x) with ("" +:+ "/" +:+ x).
      by rewrite split_sep_app, split_sep_app, split_sep_concat. }
    unfold normpath. rewrite Hsplit.
    assert (Hinit : (if String.prefix "/" ("/" +:+ rest)
                     then if String.prefix "//" ("/" +:+ rest)
                             && negb (String.prefix "///" ("/" +:+ rest))
                          then 2 else 1
                     else 0) = 1).
    { rewrite !app_cons, app_nil_l_str. cbn [String.prefix].
      repeat match goal with
             | |- context [Ascii.ascii_dec ?a ?a] =>
               destruct (Ascii.ascii_dec a a); [|congruence]
             end.
      by rewrite prefix_nil, Hrest. }
    rewrite Hinit.
    assert (Hfold : foldl (normpath_step 1) [] ("" :: cs ++ split_sep path)
                    = cs ++ List.filter kept_component (split_sep path)).
    { rewrite normpath_fold.
      - cbn [List.filter kept_component String.eqb orb negb app].
        by rewrite List.filter_app, filter_clean.
      - apply not_elem_of_cons. split; [done|].
        intros [Hin|Hin]%elem_of_app; [by apply (not_dotdot_clean cs)|done]. }
    rewrite Hfold.
    replace (String.eqb ("/" +:+ rest) "") with false by done.
    replace (truthy ("/" +:+ String.concat "/"
                       (cs ++ List.filter kept_component (split_sep path))))
      with true by done.
    done.
Qed.

(** X26: a relative request path without a [".."] component never leaves
    the artifact root.  For a root [/c1/.../cn] of proper directory names,
    such a request is never refused as an invalid path, and whatever file is
    served for it lies in the root directory or below it. *)
Theorem serve_artifact_below_root cfg exists_ path cs :
  ARTIFACTS_DIR cfg = "/" +:+ String.concat "/" cs ->
  cs <> [] ->
  forallb clean_component cs = true ->
  String.prefix "/" path = false ->
  ".." ∉ split_sep path ->
  serve_artifact cfg exists_ path <> HTTPException 403 "Invalid path"
  /\ forall ap,
       serve_artifact cfg exists_ path = FileResponse ap ->
       path_inside (ARTIFACTS_DIR cfg) (abspath (cwd cfg) ap) = true.
Proof.
  intros Hroot Hne Hcs Hrel Hdd.
  destruct (normpath_below_root cs path Hne Hcs Hrel Hdd) as [Hjoin Hnorm].
  set (more := List.filter kept_component (split_sep path)) in *.
  set (root := "/" +:+ String.concat "/" cs) in *.
  assert (Habs : abspath (cwd cfg) (root +:+ "/" +:+ path)
                 = "/" +:+ String.concat "/" (cs ++ more)).
  { unfold abspath. replace (String.prefix "/" (root +:+ "/" +:+ path)) with true.
    - exact Hnorm.
    - subst root. rewrite app_assoc_str, app_cons. cbn [String.prefix].
      match goal with
      | |- context [Ascii.ascii_dec ?a ?a] =>
        destruct (Ascii.ascii_dec a a); [|congruence]
      end.
      by rewrite prefix_nil. }
  assert (Hin : String.prefix root ("/" +:+ String.concat "/" (cs ++ more)) = true
                /\ path_inside root ("/" +:+ String.concat "/" (cs ++ more)) = true).
  { rewrite concat_app_str by done. unfold path_inside.
    destruct more as [|m more'].
    - fold root. rewrite String.eqb_refl. split; [|done].
      rewrite <- (app_nil_r_str root) at 2. apply prefix_app.
    - rewrite <- app_assoc_str. fold root. split.
      + apply prefix_app.
      + rewrite <- app_assoc_str, prefix_app. apply orb_true_r. }
  destruct Hin as [Hpre Hinside].
  unfold serve_artifact. rewrite Hroot, Hjoin, Habs, Hpre. simpl.
  split.
  - by destruct (exists_ _).
  - intros ap. destruct (exists_ _); simpl; [|done].
    intros [= <-]. by rewrite Habs.
Qed.

(** * Instances of the further properties *)

(** Instance of X1: the job of [store3] after three more requests, one of
    which tries to create a job under the same id. *)
Lemma jobs_never_change_witness :
  get_job (run cfg_prod first_requests (store3 "in_progress")) "j1" = Some job3
  /\ Job.questions
     <$> get_job (run cfg_prod first_requests (store3 "in_progress")) "j1"
     = Some (Job.questions job3).
Proof.
  apply (jobs_never_change cfg_prod first_requests (store3 "in_progress")
           "j1" job3).
  reflexivity.
Defined.

(** Instance of X2: interview [i1] after a failure report, the development
    endpoint and a read. *)
Lemma interviews_never_deleted_witness :
  exists i',
    interviews
      (run cfg_dev
         [ReqEvent (Some "i1") (Some "rejected");
          ReqSimulate "i1" ["x"; "y"; "z"]; ReqRead "i1" reply_yes]
         (store3 "in_progress")) !! "i1" = Some i'
    /\ Interview.id i' = Interview.id (inter1 "in_progress")
    /\ Interview.job_id i' = Interview.job_id (inter1 "in_progress")
    /\ Interview.candidate_id i' = Interview.candidate_id (inter1 "in_progress").
Proof.
  apply (interviews_never_deleted cfg_dev _ (store3 "in_progress") "i1"
           (inter1 "in_progress")).
  reflexivity.
Defined.

(** Instance of X4: the interview created by [first_requests]. *)
Lemma status_always_written_witness :
  written_status
    (Interview.status (row_of (run cfg_prod first_requests empty_store) "i2"))
  = true.
Proof.
  apply (status_always_written cfg_prod first_requests "i2"
           (row_of (run cfg_prod first_requests empty_store) "i2")).
  vm_compute. reflexivity.
Defined.

(** Instance of X5: the provider reports [completed] for an interview in
    progress. *)
Lemma voice_event_ignored_witness :
  voice_event (Some "i1") (Some "completed") (store3 "in_progress")
  = (store3 "in_progress", PlainTextResponse 200 "OK").
Proof. apply voice_event_ignored. left. reflexivity. Defined.

(** Instance of X6: a callback for an interview that does not exist. *)
Lemma voice_record_refused_changes_nothing_witness :
  fst (voice_record "nobody" 0 (mkPayload (Some "https://rec/0") None None)
         true (inl "a0") (store3 "in_progress"))
  = store3 "in_progress".
Proof.
  apply voice_record_refused_changes_nothing. vm_compute. discriminate.
Defined.

(** Instance of X7: the first recording arrives for a completed interview
    and is stored; a second recording arrives for the interview of
    [store_answered] and is not. *)
Lemma voice_record_only_answers_witness :
  interviews
    (fst (voice_record "i1" 0 (mkPayload (Some "https://rec/0") None None)
            true (inl "a0") (store3 "completed"))) !! "i1"
  = Some (Interview.with_answers
            [mkAnswer 0 "Q1" "https://rec/0" "/v1/artifacts/i1/q_0.mp3" "a0"
               None None] (inter1 "completed"))
  /\ fst (voice_record "i2" 0 (mkPayload (Some "https://rec/0-again") None None)
            true (inl "a0 again") store_answered)
     = store_answered.
Proof.
  split.
  - destruct (voice_record_only_answers "i1" 0
                (mkPayload (Some "https://rec/0") None None) true (inl "a0")
                (store3 "completed") (inter1 "completed") eq_refl eq_refl)
      as (_ & _ & _ & qt & Hq & Hrow & _).
    vm_compute in Hq. injection Hq as <-. exact Hrow.
  - destruct (voice_record_only_answers "i2" 0
                (mkPayload (Some "https://rec/0-again") None None) true
                (inl "a0 again") store_answered (row_of store_answered "i2"))
      as (_ & _ & _ & qt & _ & _ & Hdrop); [reflexivity..|].
    apply Hdrop. vm_compute. discriminate.
Defined.

(** Instance of X8: a read of the simulated interview of
    [store_simulated]. *)
Lemma get_interview_answers_sorted_witness :
  exists snap,
    r_response (get_interview cfg_dev "i2" ReplyRaises store_simulated)
    = Json snap
    /\ StronglySorted Z.le (map q_idx (s_answers snap))
    /\ map q_idx (s_answers snap)
       ≡ₚ map q_idx (Interview.answers (row_of store_simulated "i2")).
Proof.
  eexists. split; [vm_compute; reflexivity|].
  apply (get_interview_answers_sorted cfg_dev "i2" ReplyRaises
           store_simulated (row_of store_simulated "i2"));
    vm_compute; reflexivity.
Defined.

(** Instance of X9: a read of an interview without answers. *)
Lemma get_interview_incomplete_witness :
  r_scorer_call (get_interview cfg_prod "i1" reply_yes (store3 "in_progress"))
  = None
  /\ r_store (get_interview cfg_prod "i1" reply_yes (store3 "in_progress"))
     = store3 "in_progress".
Proof.
  apply (get_interview_incomplete cfg_prod "i1" reply_yes
           (store3 "in_progress") (inter1 "in_progress") job3); reflexivity.
Defined.

(** Instance of X10: the scorer raises on a read of [store_answered]. *)
Lemma get_interview_scorer_failure_witness :
  r_store (get_interview cfg_prod "i2" ReplyRaises store_answered)
  = store_answered
  /\ r_scorer_call (get_interview cfg_prod "i2" ReplyRaises store_answered)
     = Some (["Q1"], ["a0"]).
Proof.
  destruct (get_interview_scorer_failure cfg_prod "i2" store_answered
              (row_of store_answered "i2") job1
              (Candidate.mk "c2" "Bob" "+15550101" None))
    as (Hs & _ & Hc); [vm_compute; reflexivity..|].
  split; [exact Hs|]. rewrite Hc. vm_compute. reflexivity.
Defined.

(** Instance of X11: the read that scores [store_answered]. *)
Lemma get_interview_scores_witness :
  status_of (r_store (get_interview cfg_prod "i2" reply_yes store_answered)) "i2"
  = Some "completed"
  /\ final_recommendation_of
       (r_store (get_interview cfg_prod "i2" reply_yes store_answered)) "i2"
     = Some "Yes"
  /\ exists snap,
       r_response (get_interview cfg_prod "i2" reply_yes store_answered)
       = Json snap
       /\ s_status snap = "in_progress".
Proof.
  destruct (get_interview_scores cfg_prod "i2" reply_yes store_answered
              (row_of store_answered "i2") job1
              (Candidate.mk "c2" "Bob" "+15550101" None)
              (mkScoring [mkPerAnswer (Some 0%Z) (JNum 4) (JStr "clear")]
                 (Some "Yes")))
    as (Hs & Hf & _ & snap & Hr & Hst & _); [vm_compute; reflexivity..|].
  split; [exact Hs|]. split; [exact Hf|]. exists snap. split; [exact Hr|].
  rewrite Hst. vm_compute. reflexivity.
Defined.

(** Instance of X13: a trigger for an unknown candidate id. *)
Lemma trigger_interview_unresolved_witness :
  trigger_interview cfg_prod trigger_unknown env_accepted (store3 "in_progress")
  = (store3 "in_progress", HTTPException 404 "candidate_id invalid").
Proof. apply trigger_interview_unresolved. reflexivity. Defined.

(** Instance of X14: a trigger in development mode. *)
Lemma trigger_interview_development_witness :
  snd (trigger_interview cfg_dev trigger_bob env_refused (store3 "in_progress"))
  = Json (mkTriggerOut "i2" (Some "dev_call_0a1b2c3d") "c2" "j1" true)
  /\ interviews
       (fst (trigger_interview cfg_dev trigger_bob env_refused
               (store3 "in_progress"))) !! "i2"
     = Some (Interview.mk "i2" "j1" "c2" "in_progress"
               (Some "dev_call_0a1b2c3d") [] None).
Proof.
  apply (trigger_interview_development cfg_dev trigger_bob env_refused
           (store3 "in_progress") job3
           (Candidate.mk "c2" "Bob" "+15550101" None)); reflexivity.
Defined.

(** Instance of X15: the provider accepts the call. *)
Lemma trigger_interview_dispatched_witness :
  snd (trigger_interview cfg_prod trigger_bob env_accepted (store3 "in_progress"))
  = Json (mkTriggerOut "i2" (Some "call-2") "c2" "j1" false)
  /\ interviews
       (fst (trigger_interview cfg_prod trigger_bob env_accepted
               (store3 "in_progress"))) !! "i2"
     = Some (Interview.mk "i2" "j1" "c2" "in_progress" (Some "call-2") [] None).
Proof.
  apply (trigger_interview_dispatched cfg_prod trigger_bob env_accepted
           (store3 "in_progress") job3
           (Candidate.mk "c2" "Bob" "+15550101" None)
           (mkHttpResponse 201 "{}" (Some (Some "call-2"))) (Some "call-2"));
    first [reflexivity | simpl; lia].
Defined.

(** Instance of X16: the provider is not configured; it is, but its answer
    is not JSON; it is, but the request to it times out. *)
Lemma trigger_interview_left_calling_witness :
  (snd (trigger_interview cfg_unconfigured trigger_bob env_accepted
          (store3 "in_progress"))
   = HTTPException 500 "Vonage app/private key not configured"
   /\ interviews
        (fst (trigger_interview cfg_unconfigured trigger_bob env_accepted
                (store3 "in_progress"))) !! "i2"
      = Some (Interview.mk "i2" "j1" "c2" "calling" None [] None))
  /\ (snd (trigger_interview cfg_prod trigger_bob env_garbled
             (store3 "in_progress"))
      = Uncaught "JSONDecodeError"
      /\ interviews
           (fst (trigger_interview cfg_prod trigger_bob env_garbled
                   (store3 "in_progress"))) !! "i2"
         = Some (Interview.mk "i2" "j1" "c2" "calling" None [] None))
  /\ (snd (trigger_interview cfg_prod trigger_bob env_timeout
             (store3 "in_progress"))
      = Uncaught "ConnectTimeout"
      /\ interviews
           (fst (trigger_interview cfg_prod trigger_bob env_timeout
                   (store3 "in_progress"))) !! "i2"
         = Some (Interview.mk "i2" "j1" "c2" "calling" None [] None)).
Proof.
  split; [|split].
  - apply (trigger_interview_left_calling cfg_unconfigured trigger_bob
             env_accepted (store3 "in_progress") job3
             (Candidate.mk "c2" "Bob" "+15550101" None));
      try reflexivity.
    left. reflexivity.
  - apply (trigger_interview_left_calling cfg_prod trigger_bob env_garbled
             (store3 "in_progress") job3
             (Candidate.mk "c2" "Bob" "+15550101" None));
      try reflexivity.
    right; right. eexists. split_and!; [reflexivity | simpl; lia | reflexivity].
  - exact (trigger_interview_left_calling cfg_prod trigger_bob env_timeout
             (store3 "in_progress") job3
             (Candidate.mk "c2" "Bob" "+15550101" None) eq_refl eq_refl eq_refl
             (or_intror (or_introl (ex_intro _ "ConnectTimeout" eq_refl)))).
Defined.

(** Instance of X18: the number +15550101 is not on the whitelist. *)
Lemma whitelist_refuses_witness :
  add_candidate cfg_whitelist "Bob" "+15550101" "c2" (store3 "in_progress")
  = (store3 "in_progress",
     HTTPException 403 "Outbound number not in whitelist")
  /\ trigger_interview cfg_whitelist trigger_bob env_accepted
       (store3 "in_progress")
     = (store3 "in_progress",
        HTTPException 403 "Outbound number not in whitelist").
Proof.
  destruct (whitelist_refuses cfg_whitelist "Bob" "+15550101" "+15550101"
              (store3 "in_progress")) as [Hadd Htrig].
  - reflexivity.
  - simpl. apply non_empty_singleton_L.
  - reflexivity.
  - simpl. intros Hin%elem_of_singleton. discriminate.
  - split; [apply Hadd|].
    apply (Htrig trigger_bob env_accepted job3); reflexivity.
Defined.

(** Instance of X21: a second job is created in the second in which the
    first was, and in the second after it. *)
Lemma jd_to_questions_stored_witness :
  get_job
    (fst (jd_to_questions cfg_prod (Some "Frontend engineer") None
            (Some ["Q1"; "Q2"]) "j9" 0 store_job)) "j9"
  = Some (Job.mk "j9" "Frontend engineer" ["Q1"; "Q2"] 0)
  /\ get_latest_job
       (fst (jd_to_questions cfg_prod (Some "Frontend engineer") None
               (Some ["Q1"; "Q2"]) "j9" 0 store_job))
     = Some job3
  /\ get_latest_job
       (fst (jd_to_questions cfg_prod (Some "Frontend engineer") None
               (Some ["Q1"; "Q2"]) "j9" 1 store_job))
     = Some (Job.mk "j9" "Frontend engineer" ["Q1"; "Q2"] 1).
Proof.
  destruct (jd_to_questions_stored cfg_prod (Some "Frontend engineer") None
              (Some ["Q1"; "Q2"]) "j9" 0 store_job ["Q1"; "Q2"] eq_refl)
    as (Hg & Hsame & _).
  destruct (jd_to_questions_stored cfg_prod (Some "Frontend engineer") None
              (Some ["Q1"; "Q2"]) "j9" 1 store_job ["Q1"; "Q2"] eq_refl)
    as (_ & Hlater & _).
  split_and!; [exact Hg | exact Hsame | exact Hlater].
Defined.

(** Instance of X22: simulate-answers on [store3], then a read. *)
Lemma simulate_answers_then_read_witness :
  status_of
    (fst (simulate_answers cfg_dev "i1"
            (generate_fake_answers (Job.questions job3) (fun i c => i + c))
            (store3 "in_progress"))) "i1"
  = Some "completed"
  /\ r_scorer_call
       (get_interview cfg_dev "i1" reply_yes
          (fst (simulate_answers cfg_dev "i1"
                  (generate_fake_answers (Job.questions job3) (fun i c => i + c))
                  (store3 "in_progress"))))
     = Some (Job.questions job3,
             generate_fake_answers (Job.questions job3) (fun i c => i + c)).
Proof.
  destruct (simulate_answers_then_read cfg_dev "i1" (store3 "in_progress")
              (inter1 "in_progress") job3 (fun i c => i + c) reply_yes
              eq_refl eq_refl eq_refl) as (Hs & _ & _ & _ & Hc).
  split; [exact Hs | exact Hc].
Defined.

(** Instance of X23: simulate-answers in production mode, and in
    development mode for an interview that does not exist. *)
Lemma simulate_answers_refused_witness :
  simulate_answers cfg_prod "i1" ["x"] (store3 "in_progress")
  = (store3 "in_progress",
     HTTPException 400 "This endpoint is only available in development mode")
  /\ simulate_answers cfg_dev "nobody" ["x"] (store3 "in_progress")
     = (store3 "in_progress", HTTPException 404 "Interview not found").
Proof.
  destruct (simulate_answers_refused cfg_prod "i1" ["x"] (store3 "in_progress"))
    as (Hprod & _ & _).
  destruct (simulate_answers_refused cfg_dev "nobody" ["x"] (store3 "in_progress"))
    as (_ & Hdev & _).
  split; [apply Hprod; reflexivity | apply Hdev; reflexivity].
Defined.

(** Instance of X24: the second question of a three-question script. *)
Lemma record_actions_script_witness :
  1 < length ["Q1"; "Q2"; "Q3"]
  /\ record_actions cfg_prod "i2" ["Q1"; "Q2"; "Q3"] !! (2 * 1)
     = Some (NccoTalk ("Question " +:+ str_of_int (Z.of_nat 1 + 1)
                         +:+ ". " +:+ "Q2"))
  /\ record_actions cfg_prod "i2" ["Q1"; "Q2"; "Q3"] !! (2 * 1 + 1)
     = Some (NccoRecord true 3 "mp3"
               [PUBLIC_BASE_URL cfg_prod +:+ "/v1/voice/record?interview_id="
                  +:+ "i2" +:+ "&q_idx=" +:+ str_of_int (Z.of_nat 1)]).
Proof.
  destruct (record_actions_script cfg_prod "i2" ["Q1"; "Q2"; "Q3"])
    as (_ & _ & H).
  apply (H 1 "Q2"). reflexivity.
Defined.

(** Instance of X25: the three recordings arrive in the order 1, 0, 2. *)
Lemma deliveries_first_only_witness :
  answers_of
    (run cfg_prod
       (map (deliver "i2")
          [delivery 1 "https://rec/1" "a1"; delivery 0 "https://rec/0" "a0";
           delivery 2 "https://rec/2" "a2"])
       store_called) "i2"
  = [mkAnswer 1 "Q2" "https://rec/1" "/v1/artifacts/i2/q_1.mp3" "a1" None None].
Proof.
  rewrite (deliveries_first_only cfg_prod "i2" (delivery 1 "https://rec/1" "a1")
             [delivery 0 "https://rec/0" "a0"; delivery 2 "https://rec/2" "a2"]
             store_called (row_of store_called "i2") job3).
  - reflexivity.
  - reflexivity.
  - reflexivity.
  - reflexivity.
  - repeat constructor.
Defined.

(** Instance of X26: the recording of question 0 of interview [i1]. *)
Lemma serve_artifact_below_root_witness :
  serve_artifact cfg_prod (fun _ => true) "i1/q_0.mp3"
  <> HTTPException 403 "Invalid path"
  /\ forall ap,
       serve_artifact cfg_prod (fun _ => true) "i1/q_0.mp3" = FileResponse ap ->
       path_inside (ARTIFACTS_DIR cfg_prod) (abspath (cwd cfg_prod) ap) = true.
Proof.
  apply (serve_artifact_below_root cfg_prod (fun _ => true) "i1/q_0.mp3"
           ["srv"; "artifacts"]).
  - reflexivity.
  - discriminate.
  - reflexivity.
  - reflexivity.
  - refine (bool_decide_unpack _ _). vm_compute. exact I.
Defined.

(** Instance of X28: interview [i2] after [first_requests] and the
    recordings of the questions 1 and 2. *)
Lemma production_one_answer_witness :
  let st :=
    run cfg_prod
      (first_requests
         ++ [recording2 1 "https://rec/1" (inl "a1");
             recording2 2 "https://rec/2" (inl "a2")])
      empty_store in
  length (Interview.answers (row_of st "i2")) <= 1
  /\ r_scorer_call (get_interview cfg_prod "i2" reply_yes st) = None
  /\ r_store (get_interview cfg_prod "i2" reply_yes st) = st.
Proof.
  intros st.
  destruct (production_one_answer cfg_prod
              (first_requests
                 ++ [recording2 1 "https://rec/1" (inl "a1");
                     recording2 2 "https://rec/2" (inl "a2")])
              "i2" (row_of st "i2") job3 reply_yes)
    as [Hlen Hquiet]; [reflexivity..|].
  split; [exact Hlen|]. apply Hquiet. simpl. lia.
Defined.
